(** * go-freeipa: response decoding, request building and session retry

    A shallow embedding of the FreeIPA client library (client.go, request.go,
    response.go, errors.go) together with the properties of its accessor
    layer, request builder, error classifier and re-login policy. *)

From Stdlib Require Import ZArith NArith Ascii String Floats.SpecFloat.
From stdpp Require Import base option list strings gmap functions pretty.

Local Open Scope string_scope.
Local Open Scope Z_scope.
Local Set Warnings "-register-all".

(** ** Go values *)

(** A JSON number decodes to a [float64]. *)
Definition float64 := spec_float.

(** The dynamic values an [interface{}] holds after [encoding/json] has
    decoded into it: [nil], [bool], [float64], [string], [[]interface{}] and
    [map[string]interface{}]. *)
Inductive value : Type :=
| VNull
| VBool (b : bool)
| VNumber (f : float64)
| VString (s : string)
| VList (a : list value)
| VMap (m : gmap string value).

(** The type assertions of the accessor layer.  A failed assertion yields the
    zero value of the target type and [false]. *)
Definition as_bool (v : value) : bool * bool :=
  match v with VBool b => (b, true) | _ => (false, false) end.

Definition as_string (v : value) : string * bool :=
  match v with VString s => (s, true) | _ => ("", false) end.

Definition as_list (v : value) : list value * bool :=
  match v with VList a => (a, true) | _ => ([], false) end.

Definition as_map (v : value) : gmap string value * bool :=
  match v with VMap m => (m, true) | _ => (∅, false) end.

(** [v, ok := dict[key]] *)
Definition map_index (m : gmap string value) (key : string) : value * bool :=
  match m !! key with Some v => (v, true) | None => (VNull, false) end.

(** ** Run-time faults

    Indexing a slice out of range and assigning into a nil map abort the
    goroutine with a run-time panic. *)
Inductive outcome (A : Type) : Type :=
| Ret (a : A)
| Panic.
Arguments Ret {A} a.
Arguments Panic {A}.

#[global] Instance outcome_ret : MRet outcome := @Ret.
#[global] Instance outcome_bind : MBind outcome := fun A B k x =>
  match x with Ret a => k a | Panic => Panic end.

(** [a[index]] on a slice: faults unless [0 <= index < len(a)]. *)
Definition slice_index {A} (a : list A) (index : Z) : outcome A :=
  if index <? 0 then Panic
  else match a !! Z.to_nat index with
       | Some x => Ret x
       | None => Panic
       end.

Definition len {A} (a : list A) : Z := Z.of_nat (length a).

(** ** Response envelope (response.go)

    An [int] is a [Z]: the code compares and prints integers and never
    computes with them, so no wrap-around arises. *)

Record Message : Type := mkMessage {
  msg_Type : string;
  msg_Message : string;
  msg_Code : Z;
  msg_Name : string
}.

Record Result : Type := mkResult {
  res_Count : Z;
  res_Truncated : bool;
  res_Messages : list (option Message);
  res_Result : value;
  res_Summary : string;
  res_Value : string
}.

Record Response : Type := mkResponse {
  resp_Error : option Message;
  resp_Result : option Result;
  resp_Version : string;
  resp_Principal : string
}.

(** The polymorphic payload [r.Result.Result], when [r.Result] is not nil. *)
Definition payload (r : Response) : option value :=
  res_Result <$> resp_Result r.

Definition BoolResult (r : Response) : bool :=
  match resp_Result r with
  | None => false
  | Some res =>
    let '(v, ok) := as_bool (res_Result res) in
    if negb ok then false else v
  end.

Definition CountResults (r : Response) : Z :=
  match resp_Result r with
  | None => -1
  | Some res =>
    let '(a, ok) := as_list (res_Result res) in
    if negb ok then -1 else len a
  end.

Definition DictAtIndex (r : Response) (index : Z)
  : outcome (gmap string value * bool) :=
  match resp_Result r with
  | None => Ret (∅, false)
  | Some res =>
    let '(a, ok) := as_list (res_Result res) in
    if negb ok then Ret (∅, false)
    else if len a <? index then Ret (∅, false)
    else d ← slice_index a index; Ret (as_map d)
  end.

Definition Dict (r : Response) : gmap string value * bool :=
  match resp_Result r with
  | None => (∅, false)
  | Some res => as_map (res_Result res)
  end.

(** The tail shared by [Get] and [GetAtIndex]: fetch [key] and wrap a value
    that is not already a list in a one-element list. *)
Definition lookup_normalized (dict : gmap string value) (key : string)
  : list value * bool :=
  let '(v, ok) := map_index dict key in
  if negb ok then ([], false)
  else
    let '(a, ok) := as_list v in
    if negb ok then ([v], true) else (a, true).

Definition GetAtIndex (r : Response) (index : Z) (key : string)
  : outcome (list value * bool) :=
  '(dict, ok) ← DictAtIndex r index;
  if negb ok then Ret ([], false)
  else Ret (lookup_normalized dict key).

Definition Get (r : Response) (key : string) : list value * bool :=
  let '(dict, ok) := Dict r in
  if negb ok then ([], false)
  else lookup_normalized dict key.

(** The other revision of response.go carries [GetAtIndex] with the body of
    [DictAtIndex] written out in place. *)
Module Inlined.
Definition GetAtIndex (r : Response) (index : Z) (key : string)
  : outcome (list value * bool) :=
  match resp_Result r with
  | None => Ret ([], false)
  | Some res =>
    let '(a, ok) := as_list (res_Result res) in
    if negb ok then Ret ([], false)
    else if len a <? index then Ret ([], false)
    else
      d ← slice_index a index;
      let '(dict, ok) := as_map d in
      if negb ok then Ret ([], false)
      else
        let '(v, ok) := map_index dict key in
        if negb ok then Ret ([], false)
        else
          let '(a, ok) := as_list v in
          if negb ok then Ret ([v], true) else Ret (a, true)
  end.
End Inlined.

(** *** Typed projections *)

Definition processBool (v : value) : bool * bool :=
  let '(a, ok) := as_bool v in
  if negb ok then (false, false) else (a, true).

(** [!ok || len(v) < 1] followed by [v[0]]. *)
Definition first_or {A B} (v : list A) (ok : bool) (zero : B) (f : A -> B * bool)
  : B * bool :=
  if negb ok || (len v <? 1) then (zero, false)
  else match v with
       | x :: _ => f x
       | [] => (zero, false)
       end.

Definition GetBoolAtIndex (r : Response) (index : Z) (key : string)
  : outcome (bool * bool) :=
  '(v, ok) ← GetAtIndex r index key;
  Ret (first_or v ok false processBool).

Definition GetBool (r : Response) (key : string) : bool * bool :=
  let '(v, ok) := Get r key in
  first_or v ok false processBool.

(** The [for _, p := range v] loop of [processString], with the slice built
    so far as accumulator. *)
Fixpoint processString_from (res : list string) (v : list value)
  : list string * bool :=
  match v with
  | [] => (res, true)
  | p :: v' =>
    let '(s, ok) := as_string p in
    if negb ok then (res, false)
    else processString_from (res ++ [s]) v'
  end.

Definition processString (v : list value) : list string * bool :=
  processString_from [] v.

Definition GetStringsAtIndex (r : Response) (index : Z) (key : string)
  : outcome (list string * bool) :=
  '(v, ok) ← GetAtIndex r index key;
  if negb ok then Ret ([], false) else Ret (processString v).

Definition GetStrings (r : Response) (key : string) : list string * bool :=
  let '(v, ok) := Get r key in
  if negb ok then ([], false) else processString v.

Definition GetStringAtIndex (r : Response) (index : Z) (key : string)
  : outcome (string * bool) :=
  '(v, ok) ← GetStringsAtIndex r index key;
  Ret (first_or v ok "" (fun x => (x, true))).

Definition GetString (r : Response) (key : string) : string * bool :=
  let '(v, ok) := GetStrings r key in
  first_or v ok "" (fun x => (x, true)).

(** General date/time format in LDAP. *)
Definition LDAPGeneralizedTimeFormat : string := "20060102150405Z".

(** The binary and timestamp projections call into the standard library:
    [base64.StdEncoding.DecodeString] and [time.Parse].  Both are taken as
    they come; only whether they report an error matters to the accessors. *)
Section Projections.
Context {Time : Type}.
Variable base64_DecodeString : string -> option (list Byte.byte).
Variable time_Parse : string -> string -> option Time.
(** [time.Time{}] *)
Variable zeroTime : Time.

Fixpoint processData_from (res : list (list Byte.byte)) (v : list value)
  : list (list Byte.byte) * bool :=
  match v with
  | [] => (res, true)
  | p :: v' =>
    let '(dict, ok) := as_map p in
    if negb ok then (res, false)
    else
      let '(b, ok) := map_index dict "__base64__" in
      if negb ok then (res, false)
      else
        let '(s, ok) := as_string b in
        if negb ok then (res, false)
        else
          match base64_DecodeString s with
          | None => (res, false)
          | Some bytes => processData_from (res ++ [bytes]) v'
          end
  end.

Definition processData (v : list value) : list (list Byte.byte) * bool :=
  processData_from [] v.

Definition GetDatasAtIndex (r : Response) (index : Z) (key : string)
  : outcome (list (list Byte.byte) * bool) :=
  '(v, ok) ← GetAtIndex r index key;
  if negb ok then Ret ([], false) else Ret (processData v).

Definition GetDatas (r : Response) (key : string)
  : list (list Byte.byte) * bool :=
  let '(v, ok) := Get r key in
  if negb ok then ([], false) else processData v.

Definition GetDataAtIndex (r : Response) (index : Z) (key : string)
  : outcome (list Byte.byte * bool) :=
  '(v, ok) ← GetDatasAtIndex r index key;
  Ret (first_or v ok [] (fun x => (x, true))).

Definition GetData (r : Response) (key : string) : list Byte.byte * bool :=
  let '(v, ok) := GetDatas r key in
  first_or v ok [] (fun x => (x, true)).

Fixpoint processDateTime_from (res : list Time) (v : list value)
  : list Time * bool :=
  match v with
  | [] => (res, true)
  | p :: v' =>
    let '(dict, ok) := as_map p in
    if negb ok then (res, false)
    else
      let '(d, ok) := map_index dict "__datetime__" in
      if negb ok then (res, false)
      else
        let '(s, ok) := as_string d in
        if negb ok then (res, false)
        else
          match time_Parse LDAPGeneralizedTimeFormat s with
          | None => (res, false)
          | Some dateTime => processDateTime_from (res ++ [dateTime]) v'
          end
  end.

Definition processDateTime (v : list value) : list Time * bool :=
  processDateTime_from [] v.

Definition GetDateTimesAtIndex (r : Response) (index : Z) (key : string)
  : outcome (list Time * bool) :=
  '(v, ok) ← GetAtIndex r index key;
  if negb ok then Ret ([], false) else Ret (processDateTime v).

Definition GetDateTimes (r : Response) (key : string) : list Time * bool :=
  let '(v, ok) := Get r key in
  if negb ok then ([], false) else processDateTime v.

Definition GetDateTimeAtIndex (r : Response) (index : Z) (key : string)
  : outcome (Time * bool) :=
  '(v, ok) ← GetDateTimesAtIndex r index key;
  Ret (first_or v ok zeroTime (fun x => (x, true))).

Definition GetDateTime (r : Response) (key : string) : Time * bool :=
  let '(v, ok) := GetDateTimes r key in
  first_or v ok zeroTime (fun x => (x, true)).
End Projections.

(** ** Formatting (package fmt)

    Formats with a constant layout and operands of the matching kind are
    written as concatenations: [%s] and [%v] of a string print it as it is,
    [%d] and [%v] of an [int] print its decimal digits. *)
Definition fmt_int (n : Z) : string := pretty n.

(** [fmt.Errorf] is also called with a computed string as its layout and no
    operand at all.  The layout is then still scanned for verbs.  What
    follows is the scan of [doPrintf] for an empty operand list: literal
    text is copied, [%%] prints a percent sign, and every other verb prints
    one of the library's error markers, since there is no operand for it. *)
Module fmt.
Definition percentBangString : string := "%!".
Definition missingString : string := "(MISSING)".
Definition badIndexString : string := "(BADINDEX)".
Definition noVerbString : string := "%!(NOVERB)".
Definition badWidthString : string := "%!(BADWIDTH)".
Definition badPrecString : string := "%!(BADPREC)".

Definition byte_in (lo hi : N) (c : ascii) : bool :=
  ((lo <=? N_of_ascii c) && (N_of_ascii c <=? hi))%N.

Definition is_digit (c : ascii) : bool := byte_in 48 57 c.

Definition is_flag (c : ascii) : bool :=
  match c with
  | "#" | "0" | "+" | "-" | " " => true
  | _ => false
  end%char.

Fixpoint skip_flags (s : string) : string :=
  match s with
  | String c s' => if is_flag c then skip_flags s' else s
  | EmptyString => s
  end.

(** [tooLarge]: a width, precision or index beyond a million is refused. *)
Definition tooLarge (x : Z) : bool := (1000000 <? x) || (x <? -1000000).

(** [parsenum] on the text up to [end]: the number read, whether there was
    one, and the text left.  On overflow the scan jumps to [end], which is
    [tl] here. *)
Fixpoint parsenum_from (num : Z) (isnum : bool) (s tl : string)
  : Z * bool * string :=
  match s with
  | String c s' =>
    if is_digit c then
      if tooLarge num then (0, false, tl)
      else parsenum_from (num * 10 + (Z.of_N (N_of_ascii c) - 48)) true s' tl
    else (num, isnum, s)
  | EmptyString => (num, isnum, s)
  end.

(** [parsenum(format, i, end)] with [end = len(format)]. *)
Definition parsenum (s : string) : Z * bool * string :=
  parsenum_from 0 false s "".

(** The text before the first closing bracket and the text after it. *)
Fixpoint split_bracket (s : string) : option (string * string) :=
  match s with
  | EmptyString => None
  | String c s' =>
    if Ascii.eqb c "]"%char then Some (EmptyString, s')
    else '(a, b) ← split_bracket s'; Some (String c a, b)
  end.

(** [parseArgNumber] on text that starts with an opening bracket: whether
    a well-formed [[n]] was read, and the text left. *)
Definition parseArgNumber (s : string) : bool * string :=
  match s with
  | EmptyString => (false, s)
  | String _ s' =>
    if (String.length s <? 3)%nat then (false, s')
    else
      match split_bracket s' with
      | None => (false, s')
      | Some (digits, rest) =>
        let '(_, ok, unread) := parsenum_from 0 false digits "" in
        if negb ok || negb (String.eqb unread "") then (false, rest)
        else (true, rest)
      end
  end.

(** [argNumber] when there are no operands: the text left, whether an
    index was found, and whether [goodArgNum] is still set.  No index is in
    range, so every bracket clears [goodArgNum]. *)
Definition argNumber (s : string) : string * bool * bool :=
  match s with
  | String "[" _ =>
    let '(ok, rest) := parseArgNumber s in (rest, ok, false)
  | _ => (s, false, true)
  end.

Definition is_cont (c : ascii) : bool := byte_in 128 191 c.

Definition RuneError : string :=
  String (ascii_of_N 239) (String (ascii_of_N 191) (String (ascii_of_N 189) "")).

(** [utf8.DecodeRuneInString] followed by [writeRune]: the bytes written
    for the verb and the text left.  A well-formed sequence is written back
    as it was read; anything else is one byte wide and is written as
    U+FFFD. *)
Definition decode_verb (s : string) : string * string :=
  match s with
  | EmptyString => (RuneError, s)
  | String c0 s0 =>
    if byte_in 0 127 c0 then (String c0 "", s0)
    else
      let bad := (RuneError, s0) in
      let second_lo :=
        if Ascii.eqb c0 (ascii_of_N 224) then 160%N
        else if Ascii.eqb c0 (ascii_of_N 240) then 144%N else 128%N in
      let second_hi :=
        if Ascii.eqb c0 (ascii_of_N 237) then 159%N
        else if Ascii.eqb c0 (ascii_of_N 244) then 143%N else 191%N in
      let size :=
        if byte_in 194 223 c0 then 2%nat
        else if byte_in 224 239 c0 then 3%nat
        else if byte_in 240 244 c0 then 4%nat else 0%nat in
      match size, s0 with
      | 2%nat, String c1 s1 =>
        if byte_in second_lo second_hi c1
        then (String c0 (String c1 ""), s1) else bad
      | 3%nat, String c1 (String c2 s2) =>
        if byte_in second_lo second_hi c1 && is_cont c2
        then (String c0 (String c1 (String c2 "")), s2) else bad
      | 4%nat, String c1 (String c2 (String c3 s3)) =>
        if byte_in second_lo second_hi c1 && is_cont c2 && is_cont c3
        then (String c0 (String c1 (String c2 (String c3 ""))), s3) else bad
      | _, _ => bad
      end
  end.

(** One verb, from the text just after its percent sign: what is written
    and the text left ([None] when the layout ends inside the verb). *)
Definition verb (s : string) : string * option string :=
  let s := skip_flags s in
  let '(s, afterIndex, good1) := argNumber s in
  let '(w, s, afterIndex) :=
    match s with
    | String "*" s' => (badWidthString, s', false)
    | _ => let '(_, _, s') := parsenum s in ("", s', afterIndex)
    end in
  let '(p, s, afterIndex, good2) :=
    match s with
    | String "." s' =>
      let '(s', afterIndex, good) := argNumber s' in
      match s' with
      | String "*" s'' => (badPrecString, s'', false, good)
      | _ => let '(_, _, s'') := parsenum s' in ("", s'', afterIndex, good)
      end
    | _ => ("", s, afterIndex, true)
    end in
  let '(s, good3) :=
    if afterIndex then (s, true)
    else let '(s', _, good) := argNumber s in (s', good) in
  match s with
  | EmptyString => (w +:+ p +:+ noVerbString, None)
  | String c _ =>
    let '(v, rest) := decode_verb s in
    let out :=
      if Ascii.eqb c "%"%char then "%"%string
      else if good1 && good2 && good3
           then percentBangString +:+ v +:+ missingString
           else percentBangString +:+ v +:+ badIndexString in
    (w +:+ p +:+ out, Some rest)
  end.

(** The main loop; every round consumes at least one byte of the layout. *)
Fixpoint doPrintf (fuel : nat) (format : string) : string :=
  match fuel with
  | O => ""
  | S fuel' =>
    match format with
    | EmptyString => ""
    | String c s' =>
      if Ascii.eqb c "%" then
        match verb s' with
        | (out, None) => out
        | (out, Some rest) => out +:+ doPrintf fuel' rest
        end
      else String c (doPrintf fuel' s')
    end
  end.

(** [fmt.Sprintf(format)] *)
Definition Sprintf0 (format : string) : string :=
  doPrintf (String.length format) format.
End fmt.

(** An [error] value is represented by the text its [Error()] method
    returns. *)
Abbreviation error := string (only parsing).

(** [fmt.Errorf(format)] *)
Definition Errorf0 (format : string) : error := fmt.Sprintf0 format.

Inductive result (A : Type) : Type :=
| Ok (a : A)
| Err (e : error).
Arguments Ok {A} a.
Arguments Err {A} e.

(** [fmt.Sprintf("%v (%v): %v", t.Name, t.Code, t.Message)] *)
Definition Message_string (t : Message) : string :=
  msg_Name t +:+ " (" +:+ fmt_int (msg_Code t) +:+ "): " +:+ msg_Message t.

(** ** Error codes and rejection reasons (errors.go) *)

Definition SessionErrorCode : Z := 1200.
Definition InvalidSessionPasswordCode : Z := 1201.
Definition PasswordExpiredCode : Z := 1202.
Definition KrbPrincipalExpiredCode : Z := 1203.
Definition UserLockedCode : Z := 1204.
Definition GenericErrorCode : Z := 5000.

Definition passwordExpiredUnauthorizedReason : string := "password-expired".
Definition invalidSessionPasswordUnauthorizedReason : string := "invalid-password".
Definition krbPrincipalExpiredUnauthorizedReason : string := "krbprincipal-expired".
Definition userLockedUnauthorizedReason : string := "user-locked".
Definition rejectionReasonHTTPHeader : string := "X-Ipa-Rejection-Reason".

(** ** HTTP messages (package net/http) *)

Definition http_StatusOK : Z := 200.
Definition http_StatusUnauthorized : Z := 401.

(** [http.Header]: each key holds the list of its values, under the
    canonical spelling of the key.  [Get] canonicalizes the key it is given
    before looking it up; the one key the client asks for,
    X-Ipa-Rejection-Reason, is spelled canonically already, so the lookup is
    written without that step. *)
Definition Header_Get (h : gmap string (list string)) (key : string) : string :=
  match h !! key with
  | Some (v :: _) => v
  | _ => ""
  end.

Definition Header_Set (h : gmap string (list string)) (key v : string)
  : gmap string (list string) :=
  <[key := [v]]> h.

Definition Header_Add (h : gmap string (list string)) (key v : string)
  : gmap string (list string) :=
  <[key := (default [] (h !! key) ++ [v])%list]> h.

Record HTTPResponse : Type := mkHTTPResponse {
  StatusCode : Z;
  Header : gmap string (list string);
  Body : string
}.

Record HTTPRequest : Type := mkHTTPRequest {
  hreq_Method : string;
  hreq_URL : string;
  hreq_Header : gmap string (list string);
  hreq_Body : option string
}.

Definition unauthorizedHTTPError (resp : HTTPResponse) : error :=
  let rejectionReason := Header_Get (Header resp) rejectionReasonHTTPHeader in
  let errorCode :=
    if String.eqb rejectionReason passwordExpiredUnauthorizedReason
    then PasswordExpiredCode
    else if String.eqb rejectionReason invalidSessionPasswordUnauthorizedReason
    then InvalidSessionPasswordCode
    else if String.eqb rejectionReason krbPrincipalExpiredUnauthorizedReason
    then KrbPrincipalExpiredCode
    else if String.eqb rejectionReason userLockedUnauthorizedReason
    then UserLockedCode
    else GenericErrorCode in
  "unauthorized response <" +:+ rejectionReason +:+ "> ("
    +:+ fmt_int errorCode +:+ ")".

(** ** Request builder (request.go) *)

Definition apiVersion : string := "2.237".

(** A [map[string]interface{}] is a reference: nil, or the address of a
    table that every copy of the reference shares. *)
Definition loc := positive.

Inductive mapref : Type :=
| NilMap
| MapAt (l : loc).

(** The tables behind the references. *)
Abbreviation heap := (loc -> gmap string value).

(** What [NewRequest] stores in [Params]: the positional slice and the
    keyword map. *)
Inductive param : Type :=
| PArgs (args : list value)
| PMap (parms : mapref).

Record Request : Type := mkRequest {
  req_Method : string;
  req_Params : list param
}.

(** [parms[key] = v]: assignment to an entry in a nil map faults. *)
Definition map_assign (h : heap) (parms : mapref) (key : string) (v : value)
  : outcome heap :=
  match parms with
  | NilMap => Panic
  | MapAt l => Ret (<[l := <[key := v]> (h l)]> h)
  end.

Definition NewRequest (h : heap) (method : string) (args : list value)
    (parms : mapref) : outcome (Request * heap) :=
  h ← map_assign h parms "version" (VString apiVersion);
  let req := {| req_Method := method;
                req_Params := [PArgs args; PMap parms] |} in
  Ret (req, h).

(** Reading through a reference, as the caller does after the call. *)
Definition map_read (h : heap) (parms : mapref) (key : string) : option value :=
  match parms with
  | NilMap => None
  | MapAt l => h l !! key
  end.

(** ** Session (client.go, request.go)

    The client talks to the outside through three round trips: the form post
    of the password login, the SPNEGO exchange of the Kerberos login and the
    JSON-RPC post.  [json.Marshal] is listed with them, as it reads the tables
    a request refers to.  A program is the tree of the calls it makes. *)

(** The Kerberos client is built and driven by gokrb5; the session only
    tests whether it holds one. *)
Record Krb5Client : Type := mkKrb5Client {
  krb_User : string;
  krb_Realm : string
}.

Record Client : Type := mkClient {
  uriBase : string;
  user : string;
  password : string;
  krb5 : option Krb5Client
}.

Inductive call : Type -> Type :=
| client_PostForm (url : string) (data : list (string * list string))
  : call (result HTTPResponse)
| client_Do (req : HTTPRequest) : call (result HTTPResponse)
| spnego_Do (k : Krb5Client) (req : HTTPRequest) : call (result HTTPResponse)
| json_Marshal (request : Request) : call (result string).

Inductive io (A : Type) : Type :=
| Pure (a : A)
| Vis {X : Type} (c : call X) (k : X -> io A).
Arguments Pure {A} a.
Arguments Vis {A X} c k.

Fixpoint io_bind {A B} (k : A -> io B) (p : io A) : io B :=
  match p with
  | Pure a => k a
  | Vis c k' => Vis c (fun x => io_bind k (k' x))
  end.

#[global] Instance io_ret : MRet io := @Pure.
#[global] Instance io_mbind : MBind io := @io_bind.

Definition perform {X} (c : call X) : io X := Vis c Pure.

(** A call together with the answer it got. *)
Inductive event : Type :=
| Event {X : Type} (c : call X) (x : X).

(** The outside world: a state and the answer it gives to each call. *)
Definition handler (W : Type) : Type := forall X, call X -> W -> X * W.

Fixpoint run {W A} (h : handler W) (p : io A) (w : W) : A * W * list event :=
  match p with
  | Pure a => (a, w, [])
  | Vis c k =>
    let '(x, w1) := h _ c w in
    let '(a, w2, t) := run h (k x) w1 in
    (a, w2, Event c x :: t)
  end.

(** Round trips on the login endpoints, and on the JSON-RPC endpoint. *)
Definition is_login (e : event) : bool :=
  match e with
  | Event (client_PostForm _ _) _ => true
  | Event (spnego_Do _ _) _ => true
  | _ => false
  end.

Definition is_send (e : event) : bool :=
  match e with
  | Event (client_Do _) _ => true
  | _ => false
  end.

Fixpoint count (f : event -> bool) (t : list event) : nat :=
  match t with
  | [] => 0%nat
  | e :: t' => ((if f e then 1 else 0) + count f t')%nat
  end.

Section Session.
(** [json.NewDecoder(body).Decode(res)] into a fresh [Response],
    [http.NewRequest] and [url.Parse] are pure library functions. *)
Variable json_Decode : string -> result Response.
Variable http_NewRequest : string -> string -> option string -> result HTTPRequest.
Variable url_Parse : string -> option error.

Definition ParseResponse (body : string) : result Response :=
  match json_Decode body with
  | Err err => Err err
  | Ok res =>
    match resp_Error res with
    | Some e => Err (Errorf0 (Message_string e))
    | None =>
      match resp_Result res with
      | None => Err (Errorf0 "no result in response")
      | Some _ => Ok res
      end
    end
  end.

Definition loginWithKerberos (c : Client) (k : Krb5Client) : io (option error) :=
  match http_NewRequest "POST" (uriBase c +:+ "/session/login_kerberos") None with
  | Err err => Pure (Some ("error building login request: " +:+ err))
  | Ok req =>
    let req := {| hreq_Method := hreq_Method req;
                  hreq_URL := hreq_URL req;
                  hreq_Header := Header_Add (hreq_Header req) "Referer" (uriBase c);
                  hreq_Body := hreq_Body req |} in
    r ← perform (spnego_Do k req);
    match r with
    | Err err => Pure (Some ("error logging in using Kerberos: " +:+ err))
    | Ok res =>
      if negb (StatusCode res =? http_StatusOK)
      then Pure (Some ("unexpected http status code: "
                         +:+ fmt_int (StatusCode res)))
      else Pure None
    end
  end.

Definition login (c : Client) : io (option error) :=
  match krb5 c with
  | Some k => loginWithKerberos c k
  | None =>
    let data := [("user", [user c]); ("password", [password c])] in
    r ← perform (client_PostForm (uriBase c +:+ "/session/login_password") data);
    match r with
    | Err e => Pure (Some e)
    | Ok res =>
      if negb (StatusCode res =? http_StatusOK) then
        if StatusCode res =? http_StatusUnauthorized
        then Pure (Some (unauthorizedHTTPError res))
        else Pure (Some ("unexpected http status code: "
                           +:+ fmt_int (StatusCode res)))
      else Pure None
    end
  end.

Definition sendRequest (c : Client) (request : Request)
  : io (result HTTPResponse) :=
  r ← perform (json_Marshal request);
  match r with
  | Err err => Pure (Err err)
  | Ok data =>
    match http_NewRequest "POST" (uriBase c +:+ "/session/json") (Some data) with
    | Err err => Pure (Err err)
    | Ok req =>
      let header :=
        Header_Set (Header_Set (Header_Set (hreq_Header req)
          "Content-Type" "application/json")
          "Accept" "application/json")
          "Referer" (uriBase c) in
      perform (client_Do {| hreq_Method := hreq_Method req;
                            hreq_URL := hreq_URL req;
                            hreq_Header := header;
                            hreq_Body := hreq_Body req |})
    end
  end.

(** The tail of [Do]: a 200 is parsed, anything else is reported. *)
Definition expect_ok (res : HTTPResponse) : result Response :=
  if negb (StatusCode res =? http_StatusOK)
  then Err ("unexpected http status code: " +:+ fmt_int (StatusCode res))
  else ParseResponse (Body res).

Definition Do (c : Client) (req : Request) : io (result Response) :=
  r ← sendRequest c req;
  match r with
  | Err err => Pure (Err err)
  | Ok res =>
    if StatusCode res =? http_StatusUnauthorized then
      err ← login c;
      match err with
      | Some err => Pure (Err ("renewed login failed: " +:+ err))
      | None =>
        r ← sendRequest c req;
        match r with
        | Err err => Pure (Err err)
        | Ok res => Pure (expect_ok res)
        end
      end
    else Pure (expect_ok res)
  end.

(** [Connect], with [init] written out; the transport is part of the
    world. *)
Definition Connect (host user password : string) : io (result Client) :=
  let client := {| uriBase := "https://" +:+ host +:+ "/ipa";
                   user := user; password := password; krb5 := None |} in
  match url_Parse (uriBase client) with
  | Some err => Pure (Err err)
  | None =>
    err ← login client;
    match err with
    | Some err => Pure (Err ("login failed: " +:+ err))
    | None => Pure (Ok client)
    end
  end.
End Session.

(** ** Comparing two responses through the accessors *)

(** [r] with a result whose payload is [p]. *)
Definition with_payload (r : Response) (res : Result) (p : value) : Response :=
  {| resp_Error := resp_Error r;
     resp_Result := Some {| res_Count := res_Count res;
                            res_Truncated := res_Truncated res;
                            res_Messages := res_Messages res;
                            res_Result := p;
                            res_Summary := res_Summary res;
                            res_Value := res_Value res |};
     resp_Version := resp_Version r;
     resp_Principal := resp_Principal r |}.

Section Agreement.
Context {Time : Type}.
Variable base64_DecodeString : string -> option (list Byte.byte).
Variable time_Parse : string -> string -> option Time.
Variable zeroTime : Time.

(** [Get], [GetAtIndex] and the sixteen typed projections answer alike on
    [r1] and [r2], at every index and key. *)
Definition accessors_agree (r1 r2 : Response) : Prop :=
  forall (index : Z) (key : string),
    Get r1 key = Get r2 key
    /\ GetAtIndex r1 index key = GetAtIndex r2 index key
    /\ Inlined.GetAtIndex r1 index key = Inlined.GetAtIndex r2 index key
    /\ GetBool r1 key = GetBool r2 key
    /\ GetBoolAtIndex r1 index key = GetBoolAtIndex r2 index key
    /\ GetStrings r1 key = GetStrings r2 key
    /\ GetStringsAtIndex r1 index key = GetStringsAtIndex r2 index key
    /\ GetString r1 key = GetString r2 key
    /\ GetStringAtIndex r1 index key = GetStringAtIndex r2 index key
    /\ GetDatas base64_DecodeString r1 key = GetDatas base64_DecodeString r2 key
    /\ GetDatasAtIndex base64_DecodeString r1 index key
        = GetDatasAtIndex base64_DecodeString r2 index key
    /\ GetData base64_DecodeString r1 key = GetData base64_DecodeString r2 key
    /\ GetDataAtIndex base64_DecodeString r1 index key
        = GetDataAtIndex base64_DecodeString r2 index key
    /\ GetDateTimes time_Parse r1 key = GetDateTimes time_Parse r2 key
    /\ GetDateTimesAtIndex time_Parse r1 index key
        = GetDateTimesAtIndex time_Parse r2 index key
    /\ GetDateTime time_Parse zeroTime r1 key
        = GetDateTime time_Parse zeroTime r2 key
    /\ GetDateTimeAtIndex time_Parse zeroTime r1 index key
        = GetDateTimeAtIndex time_Parse zeroTime r2 index key.
End Agreement.

(** ** Sample responses

    The two replies of the test server, cut down to the fields read here,
    and a search that matched nothing. *)

Definition reply (n : Z) (p : value) : Response :=
  {| resp_Error := None;
     resp_Result := Some {| res_Count := n; res_Truncated := false;
                            res_Messages := []; res_Result := p;
                            res_Summary := ""; res_Value := "" |};
     resp_Version := "4.9.8";
     resp_Principal := "admin@EXAMPLE.COM" |}.

Definition user_find_two : Response :=
  reply 2 (VList
    [VMap {[ "dn" := VString "uid=admin,cn=users,cn=accounts,dc=example,dc=com";
             "uid" := VList [VString "admin"] ]};
     VMap {[ "dn" := VString "uid=johnny.bravo,cn=users,cn=accounts,dc=example,dc=com";
             "uid" := VList [VString "johnny.bravo"] ]}]).

Definition user_find_none : Response := reply 0 (VList []).

Definition user_add_one : Response :=
  reply 0 (VMap {[ "has_keytab" := VBool true;
                   "krbcanonicalname" := VList [VString "username@EXAMPLE.COM"];
                   "objectclass" := VList [VString "top"; VString "person"] ]}).

(** An error envelope whose message holds a percent sign. *)
Definition quota_error : Response :=
  {| resp_Error := Some {| msg_Type := "error";
                           msg_Message := "quota is at 100%";
                           msg_Code := 4203;
                           msg_Name := "DatabaseError" |};
     resp_Result := None;
     resp_Version := "4.9.8";
     resp_Principal := "admin@EXAMPLE.COM" |}.

Definition half_error : Response :=
  {| resp_Error := Some {| msg_Type := "error";
                           msg_Message := "50% of entries skipped";
                           msg_Code := 4204;
                           msg_Name := "LimitsExceeded" |};
     resp_Result := None;
     resp_Version := "4.9.8";
     resp_Principal := "admin@EXAMPLE.COM" |}.

(** A decoder for a body known to decode to [res]. *)
Definition decodes_to (res : Response) : string -> result Response :=
  fun _ => Ok res.

(** Whether a layout holds a percent sign. *)
Fixpoint has_percent (s : string) : bool :=
  match s with
  | EmptyString => false
  | String c s' => Ascii.eqb c "%" || has_percent s'
  end.

(** ** The rejection table as the specification words it

    Four recognized reasons with their codes, and the generic code for
    everything else. *)
Definition rejection_table : list (string * Z) :=
  [("password-expired", 1202); ("invalid-password", 1201);
   ("krbprincipal-expired", 1203); ("user-locked", 1204)].

Fixpoint table_find (reason : string) (t : list (string * Z)) : option Z :=
  match t with
  | [] => None
  | (k, code) :: t' => if String.eqb reason k then Some code else table_find reason t'
  end.

Definition rejection_code (reason : string) : Z :=
  default 5000 (table_find reason rejection_table).

(** ** The test server (client_test.go)

    Its state is whether the cookie jar holds the session cookie.  The login
    handler accepts one pair of credentials and rejects every other with the
    reason invalid-password; the JSON handler answers 401 without the
    cookie. *)
Definition login_rejected : HTTPResponse :=
  {| StatusCode := 401;
     Header := {[ "X-Ipa-Rejection-Reason" := ["invalid-password"] ]};
     Body := "Unauthorized" |}.

Definition test_server : handler bool := fun X c session =>
  match c in call X return X * bool with
  | client_PostForm _ data =>
    if decide (data = [("user", ["test"]); ("password", ["testpassword"])])
    then (Ok {| StatusCode := 200;
                Header := {[ "Ipasession" := ["correct-session-secret"] ]};
                Body := "" |}, true)
    else (Ok login_rejected, session)
  | client_Do req =>
    if session
    then (Ok {| StatusCode := 200;
                Header := {[ "Content-Type" := ["application/json"] ]};
                Body := default "" (hreq_Body req) |}, session)
    else (Ok {| StatusCode := 401; Header := ∅; Body := "Unauthorized" |},
          session)
  | spnego_Do _ _ => (Err "no KDC", session)
  | json_Marshal request => (Ok (req_Method request), session)
  end.

(** [http.NewRequest] for a method and an address it accepts. *)
Definition new_request (method url : string) (body : option string)
  : result HTTPRequest :=
  Ok {| hreq_Method := method; hreq_URL := url; hreq_Header := ∅;
        hreq_Body := body |}.

Definition test_client (password : string) : Client :=
  {| uriBase := "https://127.0.0.1:8831/ipa"; user := "test";
     password := password; krb5 := None |}.

Definition user_add_request : Request :=
  {| req_Method := "user_add";
     req_Params := [PArgs [VString "username"]; PMap (MapAt 1%positive)] |}.

(** ** Key enumeration (response.go)

    [for k := range dict] visits every key of the map once, in an order the
    language leaves open; the order is a parameter. *)
Section KeyEnumeration.
Variable range_keys : gmap string value -> list string.

(** [var res []string; for k := range dict { res = append(res, k) }] *)
Definition collect_keys (dict : gmap string value) : list string :=
  foldl (fun res k => (res ++ [k])%list) [] (range_keys dict).

Definition KeysAtIndex (r : Response) (index : Z) : outcome (list string * bool) :=
  '(dict, ok) ← DictAtIndex r index;
  if negb ok then Ret ([], false)
  else Ret (collect_keys dict, true).

Definition Keys (r : Response) : list string * bool :=
  let '(dict, ok) := Dict r in
  if negb ok then ([], false)
  else (collect_keys dict, true).
End KeyEnumeration.

(** An iteration order that visits every key of every map exactly once. *)
Definition visits_each_key_once (range_keys : gmap string value -> list string)
  : Prop :=
  forall m, range_keys m ≡ₚ (map_to_list m).*1.

(** One admissible order: that of the map's own listing. *)
Definition range_listed (m : gmap string value) : list string :=
  (map_to_list m).*1.

(** The indices at which indexing the payload goes out of range without the
    guard of [DictAtIndex] catching it. *)
Definition faulting_index (r : Response) (i : Z) : Prop :=
  0 <= CountResults r /\ (i < 0 \/ i = CountResults r).

(** A tagged wrapper: a mapping holding a string under [tag] that [decode]
    accepts as [y]. *)
Definition tagged {A} (tag : string) (decode : string -> option A)
    (x : value) (y : A) : Prop :=
  exists m s, x = VMap m /\ m !! tag = Some (VString s) /\ decode s = Some y.

(** What the accessors make of a stored value: a list as it is, anything
    else as the one-element list holding it. *)
Definition normalized (x : value) : list value :=
  match x with
  | VList a => a
  | _ => [x]
  end.

(** ** Reading a trace *)

Definition is_post_form (e : event) : bool :=
  match e with
  | Event (client_PostForm _ _) _ => true
  | _ => false
  end.

Definition is_spnego (e : event) : bool :=
  match e with
  | Event (spnego_Do _ _) _ => true
  | _ => false
  end.

(** The headers a JSON-RPC round trip of client [c] carries. *)
Definition carries_json_headers (c : Client) (e : event) : Prop :=
  match e with
  | Event (client_Do req) _ =>
    Header_Get (hreq_Header req) "Content-Type" = "application/json"
    /\ Header_Get (hreq_Header req) "Accept" = "application/json"
    /\ Header_Get (hreq_Header req) "Referer" = uriBase c
  | _ => True
  end.

(** The answer of a JSON-RPC round trip recorded in a trace. *)
Definition answered (res : HTTPResponse) (e : event) : Prop :=
  match e with
  | Event (client_Do _) x => x = Ok res
  | _ => False
  end.

(** A Kerberos client for the samples. *)
Definition test_krb5_client : Client :=
  {| uriBase := "https://127.0.0.1:8831/ipa"; user := "test"; password := "";
     krb5 := Some {| krb_User := "test"; krb_Realm := "EXAMPLE.COM" |} |}.

(** A server that turns every Kerberos login away with a 401 and a
    rejection reason. *)
Definition kerberos_rejecting_server : handler unit := fun X c w =>
  match c in call X return X * unit with
  | client_PostForm _ _ => (Err "connection refused", w)
  | client_Do _ => (Ok {| StatusCode := 401; Header := ∅; Body := "" |}, w)
  | spnego_Do _ _ => (Ok login_rejected, w)
  | json_Marshal request => (Ok (req_Method request), w)
  end.

(** The error envelope the test server sends for a request it cannot
    read. *)
Definition invalid_json_error : Response :=
  {| resp_Error := Some {| msg_Type := "error";
                           msg_Message := "Invalid JSON-RPC request: Expecting property name enclosed in double quotes: line 4 column 4 (char 44)";
                           msg_Code := 909;
                           msg_Name := "JSONError" |};
     resp_Result := None;
     resp_Version := "4.9.8";
     resp_Principal := "admin@EXAMPLE.COM" |}.

(** * Properties *)

(** ** Payload shape: [BoolResult], [CountResults], [DictAtIndex] *)

Lemma payload_Some (r : Response) (res : Result) :
  resp_Result r = Some res -> payload r = Some (res_Result res).
Proof. unfold payload. by intros ->. Qed.

Lemma len_nonneg {A} (a : list A) : 0 <= len a.
Proof. unfold len. lia. Qed.

Lemma CountResults_payload (r : Response) :
  CountResults r = match payload r with
                   | Some (VList a) => len a
                   | _ => -1
                   end.
Proof.
  unfold CountResults, payload.
  destruct (resp_Result r) as [res|]; simpl; [|done].
  by destruct (res_Result res).
Qed.

(** C7. [CountResults] is the length of the payload when the payload is a
    list, so 0 for the empty list, and -1 when the result or the payload is
    absent or the payload is anything but a list; -1 is returned for no
    list at all. *)
Theorem CountResults_length_or_sentinel (r : Response) :
  CountResults r = match payload r with
                   | Some (VList a) => len a
                   | _ => -1
                   end
  /\ (CountResults r = -1 <-> forall a, payload r <> Some (VList a))
  /\ (CountResults r = 0 <-> payload r = Some (VList [])).
Proof.
  rewrite CountResults_payload.
  destruct (payload r) as [[| | | |a|]|] eqn:E; repeat split;
    try done; try (intros H; exfalso; lia).
  - intros H. pose proof (len_nonneg a). lia.
  - intros H. by destruct (H a).
  - destruct a; [done|]. unfold len; simpl; lia.
  - by intros [= ->].
Qed.

Lemma BoolResult_payload (r : Response) :
  BoolResult r = match payload r with
                 | Some (VBool b) => b
                 | _ => false
                 end.
Proof.
  unfold BoolResult, payload.
  destruct (resp_Result r) as [res|]; simpl; [|done].
  by destruct (res_Result res).
Qed.

(** C10. [BoolResult] yields [false] exactly in three cases that its bare
    boolean cannot tell apart: the result is absent, the payload is the
    boolean false, or the payload is not a boolean at all (null included). *)
Theorem BoolResult_false_three_ways (r : Response) :
  BoolResult r = false <->
    resp_Result r = None
    \/ payload r = Some (VBool false)
    \/ exists v, payload r = Some v /\ forall b, v <> VBool b.
Proof.
  rewrite BoolResult_payload. unfold payload.
  destruct (resp_Result r) as [res|]; simpl; [|by split; [left|]].
  destruct (res_Result res) as [|b| | | |] eqn:E; split; try done;
    try (intros _; right; right; eexists; split; [done|done]).
  - intros ->. by right; left.
  - intros [?|[[= ->]|(v & [= <-] & Hv)]]; [done|done|].
    by destruct (Hv b).
Qed.

Lemma slice_index_Ret {A} (a : list A) (i : Z) (x : A) :
  slice_index a i = Ret x <-> 0 <= i /\ a !! Z.to_nat i = Some x.
Proof.
  unfold slice_index. destruct (Z.ltb_spec i 0).
  - split; [done|lia].
  - destruct (a !! Z.to_nat i); split; try done.
    + by intros [= ->].
    + by intros [_ [= ->]].
    + by intros [_ ?].
Qed.

Lemma slice_index_Panic {A} (a : list A) (i : Z) :
  slice_index a i = Panic <-> i < 0 \/ len a <= i.
Proof.
  unfold slice_index, len. destruct (Z.ltb_spec i 0).
  - split; [by left|done].
  - destruct (a !! Z.to_nat i) eqn:E; split; try done.
    + apply lookup_lt_Some in E. lia.
    + intros _. apply lookup_ge_None in E. lia.
Qed.

Lemma DictAtIndex_list (r : Response) (a : list value) (i : Z) :
  payload r = Some (VList a) ->
  DictAtIndex r i =
    if len a <? i then Ret (∅, false)
    else d ← slice_index a i; Ret (as_map d).
Proof.
  unfold payload, DictAtIndex.
  destruct (resp_Result r) as [res|]; [|done]. simpl. by intros [= ->].
Qed.

Lemma DictAtIndex_not_list (r : Response) (i : Z) :
  (forall a, payload r <> Some (VList a)) -> DictAtIndex r i = Ret (∅, false).
Proof.
  unfold payload, DictAtIndex.
  destruct (resp_Result r) as [res|]; [|done]. simpl.
  destruct (res_Result res) as [| | | |a|]; try done.
  intros H. by destruct (H a).
Qed.

(** What holds of the code: an answer with a mapping comes from a list
    payload, a valid index and a mapping at that index. *)
Lemma DictAtIndex_mapping_inv (r : Response) (i : Z) (d : gmap string value) :
  DictAtIndex r i = Ret (d, true) ->
  exists a, payload r = Some (VList a) /\ 0 <= i < len a
            /\ a !! Z.to_nat i = Some (VMap d).
Proof.
  intros H.
  destruct (payload r) as [[| | | |a|]|] eqn:E.
  all: try (rewrite DictAtIndex_not_list in H; [done|by rewrite E]).
  exists a. split; [done|].
  rewrite (DictAtIndex_list r a i E) in H.
  destruct (Z.ltb_spec (len a) i); [done|].
  destruct (slice_index a i) as [x|] eqn:Hx; [|done].
  apply slice_index_Ret in Hx as [Hi Hx]. simpl in H.
  destruct x; try done. injection H as ->.
  pose proof (lookup_lt_Some _ _ _ Hx). unfold len. split; [lia|done].
Qed.

(** An index past the length is turned away. *)
Lemma DictAtIndex_beyond (r : Response) (a : list value) (i : Z) :
  payload r = Some (VList a) -> len a < i -> DictAtIndex r i = Ret (∅, false).
Proof.
  intros E H. rewrite (DictAtIndex_list r a i E).
  by destruct (Z.ltb_spec (len a) i); [|lia].
Qed.

(** The index equal to the length and every negative index fault, and
    nothing else does. *)
Lemma DictAtIndex_Panic_iff (r : Response) (i : Z) :
  DictAtIndex r i = Panic <->
  exists a, payload r = Some (VList a) /\ (i < 0 \/ i = len a).
Proof.
  split.
  - intros H.
    destruct (payload r) as [[| | | |a|]|] eqn:E.
    all: try (rewrite DictAtIndex_not_list in H; [done|by rewrite E]).
    exists a. split; [done|].
    rewrite (DictAtIndex_list r a i E) in H.
    destruct (Z.ltb_spec (len a) i); [done|].
    destruct (slice_index a i) as [x|] eqn:Hx; [done|].
    apply slice_index_Panic in Hx. lia.
  - intros (a & E & Hi). rewrite (DictAtIndex_list r a i E).
    pose proof (len_nonneg a).
    destruct (Z.ltb_spec (len a) i); [lia|].
    assert (slice_index a i = Panic) as -> by (apply slice_index_Panic; lia).
    done.
Qed.

(** The two revisions of [GetAtIndex] agree on every input. *)
Lemma GetAtIndex_inlined (r : Response) (i : Z) (key : string) :
  Inlined.GetAtIndex r i key = GetAtIndex r i key.
Proof.
  unfold Inlined.GetAtIndex, GetAtIndex, DictAtIndex, lookup_normalized.
  destruct (resp_Result r) as [res|]; [|done].
  destruct (as_list (res_Result res)) as [a []]; [|done]. simpl.
  destruct (len a <? i); [done|].
  destruct (slice_index a i) as [d|]; [|done]. simpl.
  destruct (as_map d) as [dict []]; [|done]. simpl.
  destruct (map_index dict key) as [v []]; [|done]. simpl.
  by destruct (as_list v) as [a' []].
Qed.

(** C1. The bounds check lets the index equal to the length through, and
    no check stops a negative index: [DictAtIndex] and both revisions of
    [GetAtIndex] fault on a search that matched nothing when asked for entry
    0, and on a two-entry list when asked for entry 2 or entry -1. *)
Theorem DictAtIndex_faults_at_length :
  DictAtIndex user_find_none 0 = Panic
  /\ GetAtIndex user_find_none 0 "dn" = Panic
  /\ Inlined.GetAtIndex user_find_none 0 "dn" = Panic
  /\ DictAtIndex user_find_two 2 = Panic
  /\ Inlined.GetAtIndex user_find_two 2 "dn" = Panic
  /\ DictAtIndex user_find_two (-1) = Panic
  /\ DictAtIndex user_find_two 3 = Ret (∅, false).
Proof. repeat split; reflexivity. Qed.

(** ** String projections *)

Lemma processString_from_ok (v : list value) (res l : list string) :
  processString_from res v = (l, true) <->
  exists l', v = VString <$> l' /\ l = (res ++ l')%list.
Proof.
  revert res. induction v as [|p v IH]; intros res; simpl.
  - split.
    + intros [= <-]. exists []. by rewrite app_nil_r.
    + intros (l' & Hl & ->). destruct l'; [|done]. by rewrite app_nil_r.
  - destruct p as [| | |s| |]; simpl.
    all: try (split; [done|]; intros (l' & Hl & _); by destruct l').
    rewrite IH. split.
    + intros (l' & -> & ->). exists (s :: l'). by rewrite <- app_assoc.
    + intros (l' & Hl & ->). destruct l' as [|s' l']; [done|].
      injection Hl as -> ->. exists l'. by rewrite <- app_assoc.
Qed.

Lemma processString_ok (v : list value) (l : list string) :
  processString v = (l, true) <-> v = VString <$> l.
Proof.
  unfold processString. rewrite processString_from_ok. split.
  - by intros (l' & -> & ->).
  - intros ->. by exists l.
Qed.

Lemma processString_from_fail (v : list value) (res : list string) :
  (processString_from res v).2 = false <->
  exists x, x ∈ v /\ forall s, x <> VString s.
Proof.
  revert res. induction v as [|p v IH]; intros res; simpl.
  - split; [done|]. intros (x & Hx & _). by apply elem_of_nil in Hx.
  - destruct p as [| | |s| |]; simpl.
    all: try (split; [|done]; intros _; eexists; split; [by left|done]).
    rewrite IH. split.
    + intros (x & Hx & Hs). exists x. split; [by right|done].
    + intros (x & Hx & Hs). exists x. split; [|done].
      apply elem_of_cons in Hx as [->|Hx]; [|done]. by destruct (Hs s).
Qed.

Lemma processString_fail (v : list value) :
  (exists l, processString v = (l, false)) <->
  exists x, x ∈ v /\ forall s, x <> VString s.
Proof.
  rewrite <- (processString_from_fail v []). unfold processString.
  destruct (processString_from [] v) as [l b]; simpl. split.
  - by intros (l' & [= -> ->]).
  - intros ->. by exists l.
Qed.

(** The prefix read before the first element that is not a string comes
    back with the failure. *)
Example processString_mixed :
  processString [VString "a"; VBool true; VString "b"] = (["a"], false).
Proof. reflexivity. Qed.

Lemma first_or_id {A} (v : list A) (ok : bool) (zero : A) :
  first_or v ok zero (fun x => (x, true)) =
    match v, ok with
    | x :: _, true => (x, true)
    | _, _ => (zero, false)
    end.
Proof.
  destruct ok, v as [|x v']; try done.
  unfold first_or. simpl.
  destruct (Z.ltb_spec (len (x :: v')) 1) as [H|]; [|done].
  unfold len in H. simpl in H. lia.
Qed.

Lemma GetStrings_ok (r : Response) (key : string) (l : list string) :
  GetStrings r key = (l, true) <->
  exists v, Get r key = (v, true) /\ v = VString <$> l.
Proof.
  unfold GetStrings. destruct (Get r key) as [v []]; simpl.
  - rewrite processString_ok. split; [by exists v|].
    by intros (? & [= <-] & ?).
  - split; [done|]. by intros (? & [=] & ?).
Qed.

Lemma GetStrings_fail (r : Response) (key : string) :
  (exists l, GetStrings r key = (l, false)) <->
    (exists v, Get r key = (v, false))
    \/ exists v, Get r key = (v, true)
                 /\ exists x, x ∈ v /\ forall s, x <> VString s.
Proof.
  unfold GetStrings. destruct (Get r key) as [v []]; simpl.
  - rewrite processString_fail. split.
    + intros H. right. by exists v.
    + intros [[? [=]]|(? & [= <-] & ?)]. done.
  - split; [intros _; left; by exists v|]. intros _. by exists [].
Qed.

Lemma GetStringsAtIndex_ok (r : Response) (i : Z) (key : string)
    (l : list string) :
  GetStringsAtIndex r i key = Ret (l, true) <->
  exists v, GetAtIndex r i key = Ret (v, true) /\ v = VString <$> l.
Proof.
  unfold GetStringsAtIndex.
  destruct (GetAtIndex r i key) as [[v []]|]; simpl.
  - split.
    + intros [= H]. apply processString_ok in H. by exists v.
    + intros (? & [= <-] & H). apply processString_ok in H. by rewrite H.
  - split; [done|]. by intros (? & [=] & ?).
  - split; [done|]. by intros (? & [=] & ?).
Qed.

Lemma GetStringsAtIndex_fail (r : Response) (i : Z) (key : string) :
  (exists l, GetStringsAtIndex r i key = Ret (l, false)) <->
    (exists v, GetAtIndex r i key = Ret (v, false))
    \/ exists v, GetAtIndex r i key = Ret (v, true)
                 /\ exists x, x ∈ v /\ forall s, x <> VString s.
Proof.
  unfold GetStringsAtIndex.
  destruct (GetAtIndex r i key) as [[v []]|]; simpl.
  - split.
    + intros (l & [= H]). right. exists v. split; [done|].
      apply processString_fail. by exists l.
    + intros [[? [=]]|(? & [= <-] & H)].
      apply processString_fail in H as [l H]. exists l. by rewrite H.
  - split; [intros _; left; by exists v|]. intros _. by exists [].
  - split; [by intros [? ?]|]. by intros [[? ?]|(? & ? & ?)].
Qed.

(** C8. The plural string projections succeed with the whole normalized
    list exactly when every element of it is a string, and fail when the
    lookup failed or some element is not a string; the singular projections
    give the first element of a successful, non-empty plural result and
    fail otherwise. *)
Theorem string_projection_all_or_nothing (r : Response) (i : Z) (key : string) :
  (forall l, GetStrings r key = (l, true) <->
     exists v, Get r key = (v, true) /\ v = VString <$> l)
  /\ ((exists l, GetStrings r key = (l, false)) <->
        (exists v, Get r key = (v, false))
        \/ exists v, Get r key = (v, true)
                     /\ exists x, x ∈ v /\ forall s, x <> VString s)
  /\ GetString r key =
       match GetStrings r key with
       | (x :: _, true) => (x, true)
       | _ => ("", false)
       end
  /\ (forall l, GetStringsAtIndex r i key = Ret (l, true) <->
        exists v, GetAtIndex r i key = Ret (v, true) /\ v = VString <$> l)
  /\ ((exists l, GetStringsAtIndex r i key = Ret (l, false)) <->
        (exists v, GetAtIndex r i key = Ret (v, false))
        \/ exists v, GetAtIndex r i key = Ret (v, true)
                     /\ exists x, x ∈ v /\ forall s, x <> VString s)
  /\ GetStringAtIndex r i key =
       match GetStringsAtIndex r i key with
       | Ret (x :: _, true) => Ret (x, true)
       | Ret _ => Ret ("", false)
       | Panic => Panic
       end.
Proof.
  split; [intros l; apply GetStrings_ok|].
  split; [apply GetStrings_fail|].
  split.
  { unfold GetString. destruct (GetStrings r key) as [v ok].
    rewrite first_or_id. by destruct v, ok. }
  split; [intros l; apply GetStringsAtIndex_ok|].
  split; [apply GetStringsAtIndex_fail|].
  unfold GetStringAtIndex.
  destruct (GetStringsAtIndex r i key) as [[v ok]|]; simpl; [|done].
  rewrite first_or_id. by destruct v, ok.
Qed.

(** ** Scalar and one-element list *)

Lemma lookup_normalized_scalar (m : gmap string value) (key key' : string)
    (v : value) :
  (forall a, v <> VList a) ->
  lookup_normalized (<[key := v]> m) key'
  = lookup_normalized (<[key := VList [v]]> m) key'.
Proof.
  intros Hv. unfold lookup_normalized, map_index.
  destruct (decide (key' = key)) as [->|Hne].
  - rewrite !lookup_insert_eq. simpl.
    destruct v as [| | | |a|]; try done. by destruct (Hv a).
  - by rewrite !lookup_insert_ne.
Qed.

Lemma Get_map_payload (r : Response) (res : Result) (m : gmap string value)
    (key : string) :
  Get (with_payload r res (VMap m)) key = lookup_normalized m key.
Proof. done. Qed.

Lemma GetAtIndex_list_payload (r : Response) (res : Result) (a : list value)
    (i : Z) (key : string) :
  GetAtIndex (with_payload r res (VList a)) i key =
    if len a <? i then Ret ([], false)
    else
      d ← slice_index a i;
      match d with
      | VMap dict => Ret (lookup_normalized dict key)
      | _ => Ret ([], false)
      end.
Proof.
  unfold GetAtIndex, DictAtIndex. simpl.
  destruct (len a <? i); [done|].
  destruct (slice_index a i) as [d|]; [|done]. by destruct d.
Qed.

Lemma GetAtIndex_scalar (r : Response) (res : Result) (a : list value)
    (j : nat) (m : gmap string value) (key key' : string) (v : value) (i : Z) :
  (forall l, v <> VList l) ->
  GetAtIndex (with_payload r res (VList (<[j := VMap (<[key := v]> m)]> a))) i key'
  = GetAtIndex
      (with_payload r res (VList (<[j := VMap (<[key := VList [v]]> m)]> a))) i key'.
Proof.
  intros Hv. rewrite !GetAtIndex_list_payload.
  unfold len, slice_index. rewrite !length_insert.
  destruct (Z.of_nat (length a) <? i); [done|].
  destruct (i <? 0); [done|].
  destruct (decide (Z.to_nat i = j)) as [<-|Hne].
  - destruct (decide (Z.to_nat i < length a)%nat) as [Hlt|Hge].
    + rewrite !list_lookup_insert_eq by done. simpl.
      by rewrite lookup_normalized_scalar.
    + by rewrite !list_insert_ge by lia.
  - by rewrite !list_lookup_insert_ne.
Qed.

Section AgreementProps.
Context {Time : Type}.
Variable base64_DecodeString : string -> option (list Byte.byte).
Variable time_Parse : string -> string -> option Time.
Variable zeroTime : Time.

(** Every typed projection is a function of what [Get] or [GetAtIndex]
    returns. *)
Lemma accessors_agree_intro (r1 r2 : Response) :
  (forall key, Get r1 key = Get r2 key) ->
  (forall index key, GetAtIndex r1 index key = GetAtIndex r2 index key) ->
  accessors_agree base64_DecodeString time_Parse zeroTime r1 r2.
Proof.
  intros HG HA index key.
  rewrite !GetAtIndex_inlined.
  unfold GetBool, GetBoolAtIndex, GetString, GetStringAtIndex,
    GetData, GetDataAtIndex, GetDateTime, GetDateTimeAtIndex,
    GetStrings, GetStringsAtIndex, GetDatas, GetDatasAtIndex,
    GetDateTimes, GetDateTimesAtIndex.
  rewrite !HG, !HA. repeat split.
Qed.

(** C3. Storing a value that is not a list bare, or as the one-element
    list holding it, makes no difference to [Get], [GetAtIndex] or any
    typed projection: in a single-mapping payload, and in any entry of a
    list payload. *)
Theorem scalar_and_singleton_agree (r : Response) (res : Result)
    (m : gmap string value) (a : list value) (j : nat) (key : string)
    (v : value) :
  (forall l, v <> VList l) ->
  accessors_agree base64_DecodeString time_Parse zeroTime
    (with_payload r res (VMap (<[key := v]> m)))
    (with_payload r res (VMap (<[key := VList [v]]> m)))
  /\ accessors_agree base64_DecodeString time_Parse zeroTime
       (with_payload r res (VList (<[j := VMap (<[key := v]> m)]> a)))
       (with_payload r res (VList (<[j := VMap (<[key := VList [v]]> m)]> a))).
Proof.
  intros Hv. split; apply accessors_agree_intro.
  - intros key'. rewrite !Get_map_payload. by apply lookup_normalized_scalar.
  - done.
  - done.
  - intros i key'. by apply GetAtIndex_scalar.
Qed.
End AgreementProps.

Lemma scalar_and_singleton_agree_witness :
  accessors_agree (fun _ => None) (fun _ _ => @None unit) tt
    (with_payload user_add_one (mkResult 0 false [] VNull "" "")
       (VMap (<["dn" := VString "uid=admin"]> ∅)))
    (with_payload user_add_one (mkResult 0 false [] VNull "" "")
       (VMap (<["dn" := VList [VString "uid=admin"]]> ∅)))
  /\ accessors_agree (fun _ => None) (fun _ _ => @None unit) tt
       (with_payload user_add_one (mkResult 0 false [] VNull "" "")
          (VList (<[0%nat := VMap (<["dn" := VString "uid=admin"]> ∅)]> [VNull])))
       (with_payload user_add_one (mkResult 0 false [] VNull "" "")
          (VList (<[0%nat := VMap (<["dn" := VList [VString "uid=admin"]]> ∅)]>
                    [VNull]))).
Proof.
  apply (scalar_and_singleton_agree (fun _ => None) (fun _ _ => @None unit) tt
           user_add_one (mkResult 0 false [] VNull "" "") ∅ [VNull] 0 "dn"
           (VString "uid=admin")).
  intros l. discriminate.
Defined.

(** ** Decoding the envelope *)

Lemma doPrintf_no_percent (s : string) (fuel : nat) :
  has_percent s = false -> (String.length s <= fuel)%nat ->
  fmt.doPrintf fuel s = s.
Proof.
  revert fuel. induction s as [|c s IH]; intros fuel Hp Hf.
  - by destruct fuel.
  - simpl in Hp, Hf. apply orb_false_iff in Hp as [Hc Hp].
    destruct fuel as [|fuel]; [lia|]. simpl. rewrite Hc.
    f_equal. apply IH; [done|lia].
Qed.

(** A layout without a percent sign is printed as it stands. *)
Lemma Errorf0_no_percent (s : string) :
  has_percent s = false -> Errorf0 s = s.
Proof. intros H. by apply doPrintf_no_percent. Qed.

Section EnvelopeProps.
Variable json_Decode : string -> result Response.

(** What [ParseResponse] does, case by case. *)
Lemma ParseResponse_cases (body : string) :
  ParseResponse json_Decode body =
    match json_Decode body with
    | Err err => Err err
    | Ok res =>
      match resp_Error res, resp_Result res with
      | Some e, _ => Err (fmt.Sprintf0 (Message_string e))
      | None, None => Err "no result in response"
      | None, Some _ => Ok res
      end
    end.
Proof.
  unfold ParseResponse. destruct (json_Decode body) as [res|]; [|done].
  destruct (resp_Error res); [done|]. by destruct (resp_Result res).
Qed.

(** The error envelope is reported word for word as long as the combined
    text holds no percent sign, whether or not a result came with it. *)
Lemma ParseResponse_error_verbatim (body : string) (res : Response) (e : Message) :
  json_Decode body = Ok res -> resp_Error res = Some e ->
  has_percent (Message_string e) = false ->
  ParseResponse json_Decode body
  = Err (msg_Name e +:+ " (" +:+ fmt_int (msg_Code e) +:+ "): " +:+ msg_Message e).
Proof.
  intros Hd He Hp. rewrite ParseResponse_cases, Hd, He.
  f_equal. by apply Errorf0_no_percent.
Qed.
End EnvelopeProps.

(** C4. [ParseResponse] hands the combined text of the error envelope to
    [fmt.Errorf] as its layout, so a percent sign in the server's message is
    read as a verb: the error reported for the envelope with the message
    "quota is at 100%" is not the combined text, and neither is the one for
    "50% of entries skipped". *)
Theorem ParseResponse_percent_in_message :
  Message_string (mkMessage "error" "quota is at 100%" 4203 "DatabaseError")
    = "DatabaseError (4203): quota is at 100%"
  /\ ParseResponse (decodes_to quota_error) "quota_error.json"
     = Err "DatabaseError (4203): quota is at 100%!(NOVERB)"
  /\ ParseResponse (decodes_to half_error) "half_error.json"
     = Err "LimitsExceeded (4204): 50%!o(MISSING)f entries skipped".
Proof. repeat split; vm_compute; reflexivity. Qed.

(** ** Rejection reasons *)

Lemma unauthorizedHTTPError_code (resp : HTTPResponse) :
  unauthorizedHTTPError resp
  = "unauthorized response <"
      +:+ Header_Get (Header resp) rejectionReasonHTTPHeader +:+ "> ("
      +:+ fmt_int (rejection_code (Header_Get (Header resp) rejectionReasonHTTPHeader))
      +:+ ")".
Proof.
  unfold unauthorizedHTTPError, rejection_code, rejection_table. simpl.
  unfold passwordExpiredUnauthorizedReason,
    invalidSessionPasswordUnauthorizedReason,
    krbPrincipalExpiredUnauthorizedReason, userLockedUnauthorizedReason.
  repeat (match goal with |- context [String.eqb ?a ?b] =>
            destruct (String.eqb a b); [done|] end).
  done.
Qed.

Lemma rejection_code_other (reason : string) :
  reason <> "password-expired" -> reason <> "invalid-password" ->
  reason <> "krbprincipal-expired" -> reason <> "user-locked" ->
  rejection_code reason = GenericErrorCode.
Proof.
  intros H1 H2 H3 H4. unfold rejection_code, rejection_table. simpl.
  apply String.eqb_neq in H1, H2, H3, H4. by rewrite H1, H2, H3, H4.
Qed.

(** ** Running the session *)

Lemma run_bind {W A B} (h : handler W) (p : io A) (k : A -> io B) (w : W) :
  run h (p ≫= k) w =
    let '(a, w1, t1) := run h p w in
    let '(b, w2, t2) := run h (k a) w1 in
    (b, w2, (t1 ++ t2)%list).
Proof.
  revert w. induction p as [a|X c k' IH]; intros w; simpl.
  - unfold mbind, io_mbind. simpl. by destruct (run h (k a) w) as [[b w2] t2].
  - unfold mbind, io_mbind in *. simpl.
    destruct (h X c w) as [x w1]. rewrite IH.
    destruct (run h (k' x) w1) as [[a w2] t1].
    by destruct (run h (k a) w2) as [[b w3] t2].
Qed.

Lemma run_perform {W X} (h : handler W) (c : call X) (w : W) :
  run h (perform c) w = ((h X c w).1, (h X c w).2, [Event c (h X c w).1]).
Proof. unfold perform. simpl. by destruct (h X c w). Qed.

Lemma count_app (f : event -> bool) (t1 t2 : list event) :
  count f (t1 ++ t2) = (count f t1 + count f t2)%nat.
Proof. induction t1 as [|e t1 IH]; simpl; [done|]. rewrite IH. lia. Qed.

Section SessionProps.
Context {W : Type}.
Variable json_Decode : string -> result Response.
Variable http_NewRequest : string -> string -> option string -> result HTTPRequest.
Variable h : handler W.

(** A send makes no login round trip and at most one JSON-RPC round trip;
    a response can only come from that round trip. *)
Lemma sendRequest_trace (c : Client) (req : Request) (w w' : W)
    (r : result HTTPResponse) (t : list event) :
  run h (sendRequest http_NewRequest c req) w = (r, w', t) ->
  count is_login t = 0%nat
  /\ (count is_send t <= 1)%nat
  /\ (forall res, r = Ok res -> count is_send t = 1%nat).
Proof.
  unfold sendRequest. rewrite run_bind, run_perform.
  destruct (h _ (json_Marshal req) w) as [[data|e] w1]; simpl.
  - destruct (http_NewRequest _ _ _) as [hreq|e]; simpl.
    + destruct (h _ (client_Do _) w1) as [x w2]. intros [= <- <- <-].
      simpl. repeat split; lia.
    + intros [= <- <- <-]. simpl. repeat split; [lia|done].
  - intros [= <- <- <-]. simpl. repeat split; [lia|done].
Qed.

(** A login makes no JSON-RPC round trip and at most one login round trip,
    and succeeds only after that round trip. *)
Lemma login_trace (c : Client) (w w' : W) (e : option error) (t : list event) :
  run h (login http_NewRequest c) w = (e, w', t) ->
  count is_send t = 0%nat
  /\ (count is_login t <= 1)%nat
  /\ (e = None -> count is_login t = 1%nat).
Proof.
  unfold login, loginWithKerberos. destruct (krb5 c) as [k|].
  - destruct (http_NewRequest _ _ _) as [hreq|err]; simpl.
    + destruct (h _ (spnego_Do _ _) w) as [[res|err] w1]; simpl.
      * destruct (negb _); intros [= <- <- <-]; simpl; repeat split; lia.
      * intros [= <- <- <-]. simpl. repeat split; lia.
    + intros [= <- <- <-]. simpl. repeat split; [lia|done].
  - simpl. destruct (h _ (client_PostForm _ _) w) as [[res|err] w1]; simpl.
    + destruct (negb _); [destruct (_ =? _)|];
        intros [= <- <- <-]; simpl; repeat split; lia.
    + intros [= <- <- <-]. simpl. repeat split; lia.
Qed.

(** C6. A 401 answer to the password login is classified by its
    X-Ipa-Rejection-Reason header through the table of four reasons
    (password-expired 1202, invalid-password 1201, krbprincipal-expired 1203,
    user-locked 1204), any other value, the empty one included, falling to
    the generic code 5000; the error reads
    "unauthorized response <reason> (code)". *)
Theorem login_unauthorized_reason (c : Client) (w w' : W) (res : HTTPResponse) :
  krb5 c = None ->
  h _ (client_PostForm (uriBase c +:+ "/session/login_password")
         [("user", [user c]); ("password", [password c])]) w = (Ok res, w') ->
  StatusCode res = http_StatusUnauthorized ->
  (run h (login http_NewRequest c) w).1.1
    = Some ("unauthorized response <"
              +:+ Header_Get (Header res) "X-Ipa-Rejection-Reason" +:+ "> ("
              +:+ fmt_int (rejection_code
                             (Header_Get (Header res) "X-Ipa-Rejection-Reason"))
              +:+ ")")
  /\ rejection_code "password-expired" = 1202
  /\ rejection_code "invalid-password" = 1201
  /\ rejection_code "krbprincipal-expired" = 1203
  /\ rejection_code "user-locked" = 1204
  /\ rejection_code "" = 5000
  /\ (forall reason,
        reason <> "password-expired" -> reason <> "invalid-password" ->
        reason <> "krbprincipal-expired" -> reason <> "user-locked" ->
        rejection_code reason = 5000).
Proof.
  intros Hk Hpost Hst. split; [|repeat split; try done; apply rejection_code_other].
  unfold login. rewrite Hk. simpl. rewrite Hpost. simpl. rewrite Hst. simpl.
  by rewrite unauthorizedHTTPError_code.
Qed.

(** C2. When the first send is answered 401, [Do] logs in once.  If the
    login fails, [Do] fails with "renewed login failed: " followed by the
    login error, a text no 401 report can equal, and nothing more is sent.  If
    it succeeds, the request is sent once more and that outcome is final: a
    transport error as it is, a 200 parsed, any other status, 401 included,
    reported as an unexpected status, with no further login or send. *)
Theorem Do_relogin_once (c : Client) (req : Request) (w w1 : W)
    (res1 : HTTPResponse) (t1 : list event) :
  run h (sendRequest http_NewRequest c req) w = (Ok res1, w1, t1) ->
  StatusCode res1 = http_StatusUnauthorized ->
  match run h (login http_NewRequest c) w1 with
  | (Some err, w2, t2) =>
    run h (Do json_Decode http_NewRequest c req) w
      = (Err ("renewed login failed: " +:+ err), w2, (t1 ++ t2)%list)
    /\ count is_send (t1 ++ t2) = 1%nat
    /\ (count is_login (t1 ++ t2) <= 1)%nat
    /\ (forall res, "renewed login failed: " +:+ err <> unauthorizedHTTPError res)
    /\ (forall code, "renewed login failed: " +:+ err
                     <> "unexpected http status code: " +:+ fmt_int code)
  | (None, w2, t2) =>
    match run h (sendRequest http_NewRequest c req) w2 with
    | (r2, w3, t3) =>
      run h (Do json_Decode http_NewRequest c req) w
        = (match r2 with
           | Err err => Err err
           | Ok res2 =>
             if StatusCode res2 =? http_StatusOK
             then ParseResponse json_Decode (Body res2)
             else Err ("unexpected http status code: "
                         +:+ fmt_int (StatusCode res2))
           end, w3, (t1 ++ t2 ++ t3)%list)
      /\ count is_login (t1 ++ t2 ++ t3) = 1%nat
      /\ (count is_send (t1 ++ t2 ++ t3) <= 2)%nat
      /\ (forall res2, r2 = Ok res2 -> count is_send (t1 ++ t2 ++ t3) = 2%nat)
    end
  end.
Proof.
  intros Hsend Hst.
  pose proof (sendRequest_trace _ _ _ _ _ _ Hsend) as (Hl1 & _ & Hs1).
  specialize (Hs1 res1 eq_refl).
  unfold Do. rewrite run_bind, Hsend. cbv beta iota.
  rewrite Hst, Z.eqb_refl. rewrite run_bind.
  destruct (run h (login http_NewRequest c) w1) as [[[err|] w2] t2] eqn:Hlogin;
    pose proof (login_trace _ _ _ _ _ Hlogin) as (Hs2 & Hl2 & Hl2');
    cbv beta iota.
  - simpl. rewrite app_nil_r, !count_app. repeat split; try done; try lia.
  - rewrite run_bind.
    destruct (run h (sendRequest http_NewRequest c req) w2) as [[r2 w3] t3]
      eqn:Hsend2.
    pose proof (sendRequest_trace _ _ _ _ _ _ Hsend2) as (Hl3 & Hs3 & Hs3').
    specialize (Hl2' eq_refl). rewrite !count_app. cbv beta iota.
    repeat split; try lia.
    + destruct r2 as [res2|err]; simpl; [|by rewrite app_nil_r].
      rewrite app_nil_r. unfold expect_ok.
      by destruct (StatusCode res2 =? http_StatusOK).
    + intros res2 Hr. rewrite (Hs3' res2 Hr). lia.
Qed.
End SessionProps.

Lemma login_unauthorized_reason_witness :
  (run test_server (login new_request (test_client "wrong-password")) false).1.1
  = Some "unauthorized response <invalid-password> (1201)".
Proof.
  exact (proj1 (login_unauthorized_reason new_request test_server
                  (test_client "wrong-password") false false login_rejected
                  eq_refl eq_refl eq_refl)).
Defined.

Lemma Do_relogin_once_witness :
  (run test_server
     (Do (decodes_to user_add_one) new_request (test_client "wrong-password")
        user_add_request) false).1.1
  = Err "renewed login failed: unauthorized response <invalid-password> (1201)".
Proof.
  exact (f_equal (fun x => x.1.1)
           (proj1 (Do_relogin_once (decodes_to user_add_one) new_request
                     test_server (test_client "wrong-password")
                     user_add_request false false _ _ eq_refl eq_refl))).
Defined.

(** The session of the test: the cookie is gone, the password is right, and
    the request goes through on the second send after one login. *)
Example Do_expired_session :
  let '(r, session, t) :=
    run test_server
      (Do (decodes_to user_add_one) new_request (test_client "testpassword")
         user_add_request) false in
  r = Ok user_add_one /\ session = true
  /\ count is_login t = 1%nat /\ count is_send t = 2%nat.
Proof. vm_compute. repeat split. Qed.

(** With the cookie in place nothing but the one send happens. *)
Example Do_live_session :
  let '(r, session, t) :=
    run test_server
      (Do (decodes_to user_add_one) new_request (test_client "testpassword")
         user_add_request) true in
  r = Ok user_add_one /\ count is_login t = 0%nat /\ count is_send t = 1%nat.
Proof. vm_compute. repeat split. Qed.

(** The failed connection of the test. *)
Example Connect_wrong_password :
  (run test_server
     (Connect new_request (fun _ => None) "127.0.0.1:8831" "test" "wrong-password")
     false).1.1
  = Err "login failed: unauthorized response <invalid-password> (1201)".
Proof. vm_compute. reflexivity. Qed.

(** ** Request builder *)

(** C5. For every method, positional list and keyword map, the request
    built has as params exactly the two elements [args; parms], and the
    keyword map then holds the protocol version under "version", whatever it
    held there before; its other entries are as they were. *)
Theorem NewRequest_params_version (h : heap) (method : string)
    (args : list value) (l : loc) :
  exists req h',
    NewRequest h method args (MapAt l) = Ret (req, h')
    /\ req_Method req = method
    /\ req_Params req = [PArgs args; PMap (MapAt l)]
    /\ length (req_Params req) = 2%nat
    /\ map_read h' (MapAt l) "version" = Some (VString apiVersion)
    /\ (forall key, key <> "version" ->
          map_read h' (MapAt l) key = map_read h (MapAt l) key).
Proof.
  eexists _, _. split; [reflexivity|]. simpl.
  rewrite fn_lookup_insert. repeat split.
  - by rewrite lookup_insert_eq.
  - intros key Hk. by rewrite lookup_insert_ne.
Qed.

(** A version the caller put in is replaced. *)
Example NewRequest_overrides_version :
  let h : heap := fun _ => {[ "version" := VString "1.0"; "sizelimit" := VBool true ]} in
  match NewRequest h "user_find" [VString ""] (MapAt 1%positive) with
  | Ret (req, h') =>
    map_read h' (MapAt 1%positive) "version" = Some (VString "2.237")
    /\ map_read h' (MapAt 1%positive) "sizelimit" = Some (VBool true)
  | Panic => False
  end.
Proof. vm_compute. done. Qed.

(** C9. [NewRequest] faults on a nil keyword map.  Whenever it returns, the
    map was not nil, the request holds the caller's own reference, and the
    table behind that reference has been updated in place with the version
    entry, every other table being untouched. *)
Theorem NewRequest_nil_map_faults (h : heap) (method : string)
    (args : list value) (parms : mapref) :
  NewRequest h method args NilMap = Panic
  /\ (forall req h',
        NewRequest h method args parms = Ret (req, h') ->
        exists l, parms = MapAt l
          /\ req_Params req = [PArgs args; PMap (MapAt l)]
          /\ h' l = <["version" := VString apiVersion]> (h l)
          /\ forall l', l' <> l -> h' l' = h l').
Proof.
  split; [done|]. intros req h' H.
  destruct parms as [|l]; [done|]. injection H as <- <-.
  exists l. repeat split.
  - by rewrite fn_lookup_insert.
  - intros l' Hl. by rewrite fn_lookup_insert_ne.
Qed.

(** * Further properties of the accessor layer *)

Lemma lookup_normalized_ok (m : gmap string value) (key : string) (v : list value) :
  lookup_normalized m key = (v, true) <->
  exists x, m !! key = Some x /\ v = normalized x.
Proof.
  unfold lookup_normalized, map_index.
  destruct (m !! key) as [x|]; simpl.
  - destruct x; simpl; (split; [intros [= <-]; by eexists|]);
      by intros (? & [= <-] & ->).
  - split; [done|]. by intros (? & ? & _).
Qed.

Lemma lookup_normalized_fail (m : gmap string value) (key : string) :
  lookup_normalized m key = ([], false) \/ (lookup_normalized m key).2 = true.
Proof.
  unfold lookup_normalized, map_index.
  destruct (m !! key) as [x|]; simpl; [right|by left]. by destruct x.
Qed.

Lemma Dict_payload (r : Response) :
  Dict r = match payload r with
           | Some (VMap m) => (m, true)
           | _ => (∅, false)
           end.
Proof.
  unfold Dict, payload. destruct (resp_Result r) as [res|]; [|done].
  simpl. by destruct (res_Result res).
Qed.

Lemma Get_fail_nil (r : Response) (key : string) :
  Get r key = ([], false) \/ (Get r key).2 = true.
Proof.
  unfold Get. rewrite Dict_payload.
  destruct (payload r) as [[| | | | |m]|]; simpl; try by left.
  apply lookup_normalized_fail.
Qed.

(** X1. [Get] succeeds exactly when the payload is a single mapping that
    holds the key, and then returns the stored list, or the stored value
    wrapped in a one-element list; in every other case it returns the empty
    list and false. *)
Theorem Get_succeeds_iff (r : Response) (key : string) :
  (forall v, Get r key = (v, true) <->
     exists m x, payload r = Some (VMap m) /\ m !! key = Some x
                 /\ v = normalized x)
  /\ (Get r key = ([], false) \/ (Get r key).2 = true).
Proof.
  unfold Get. rewrite Dict_payload.
  destruct (payload r) as [[| | | | |m]|]; simpl.
  all: try (split; [|by left]; intros v; split; [done|];
            by intros (? & ? & [=] & _)).
  split; [|apply lookup_normalized_fail].
  intros v. rewrite lookup_normalized_ok. split.
  - intros (x & Hx & ->). by exists m, x.
  - intros (m' & x & [= <-] & Hx & ->). by exists x.
Qed.

Lemma GetAtIndex_payload (r : Response) (i : Z) (key : string) :
  GetAtIndex r i key =
    match payload r with
    | Some (VList a) =>
      if len a <? i then Ret ([], false)
      else
        d ← slice_index a i;
        match d with
        | VMap dict => Ret (lookup_normalized dict key)
        | _ => Ret ([], false)
        end
    | _ => Ret ([], false)
    end.
Proof.
  unfold GetAtIndex, DictAtIndex, payload.
  destruct (resp_Result r) as [res|]; [|done]. simpl.
  destruct (res_Result res) as [| | | |a|]; try done. simpl.
  destruct (len a <? i); [done|].
  destruct (slice_index a i) as [d|]; [|done]. by destruct d.
Qed.

(** X2. [GetAtIndex] succeeds exactly when the payload is a list, the index
    addresses one of its elements, that element is a mapping and the mapping
    holds the key; the answer is then the normalized stored value. *)
Theorem GetAtIndex_succeeds_iff (r : Response) (i : Z) (key : string)
    (v : list value) :
  GetAtIndex r i key = Ret (v, true) <->
  exists a m x, payload r = Some (VList a) /\ 0 <= i < len a
                /\ a !! Z.to_nat i = Some (VMap m)
                /\ m !! key = Some x /\ v = normalized x.
Proof.
  rewrite GetAtIndex_payload.
  destruct (payload r) as [[| | | |a|]|]; simpl.
  all: try (split; [done|]; by intros (? & ? & ? & [=] & _)).
  split.
  - destruct (Z.ltb_spec (len a) i); [done|].
    destruct (slice_index a i) as [d|] eqn:Hd; [|done].
    apply slice_index_Ret in Hd as [Hi Hd]. simpl.
    destruct d as [| | | | |m]; try done.
    intros [= Hn]. apply lookup_normalized_ok in Hn as (x & Hx & ->).
    exists a, m, x. pose proof (lookup_lt_Some _ _ _ Hd).
    unfold len. repeat split; try done; lia.
  - intros (a' & m & x & [= <-] & Hi & Hd & Hx & ->).
    destruct (Z.ltb_spec (len a) i); [lia|].
    assert (slice_index a i = Ret (VMap m)) as ->
      by (apply slice_index_Ret; split; [lia|done]).
    simpl. f_equal. apply lookup_normalized_ok. by exists x.
Qed.

(** X4. The three payload shapes exclude one another through the accessors:
    when [Dict] succeeds, [CountResults] is -1, [BoolResult] is false and
    [GetAtIndex] fails without faulting at every index; when [CountResults]
    is not negative, [Dict] and [Get] fail; when [BoolResult] is true, [Dict]
    fails and [CountResults] is -1. *)
Theorem payload_shapes_exclusive (r : Response) :
  ((Dict r).2 = true ->
     CountResults r = -1 /\ BoolResult r = false
     /\ forall i key, GetAtIndex r i key = Ret ([], false))
  /\ (0 <= CountResults r ->
        (Dict r).2 = false /\ BoolResult r = false
        /\ forall key, Get r key = ([], false))
  /\ (BoolResult r = true -> (Dict r).2 = false /\ CountResults r = -1).
Proof.
  unfold Get.
  rewrite Dict_payload, CountResults_payload, BoolResult_payload.
  repeat split; intros; try rewrite GetAtIndex_payload;
    destruct (payload r) as [[| | | | |]|]; simpl in *; try done; lia.
Qed.

Lemma first_or_processBool (v : list value) (ok b : bool) :
  first_or v ok false processBool = (b, true) <->
  ok = true /\ exists rest, v = VBool b :: rest.
Proof.
  destruct ok, v as [|x v']; simpl; try (split; [done|]).
  - by intros [_ [? ?]].
  - unfold first_or. simpl.
    destruct (Z.ltb_spec (len (x :: v')) 1) as [H|_].
    { unfold len in H. simpl in H. lia. }
    destruct x; simpl; split; try done; try by intros [_ [? [=]]].
    + intros [= ->]. split; [done|]. by eexists.
    + by intros [_ [? [= ->]]].
  - by intros [? _].
  - by intros [? _].
Qed.

Lemma first_or_processBool_fail (v : list value) (ok : bool) :
  (first_or v ok false processBool).2 = false ->
  first_or v ok false processBool = (false, false).
Proof.
  unfold first_or. destruct (negb ok || (len v <? 1)); [done|].
  destruct v as [|x v']; [done|]. by destruct x as [|[]| | | |].
Qed.

(** X5. The boolean projections look at the first element of the normalized
    list only: they succeed with [b] exactly when that element is the boolean
    [b], whatever follows it, and a failure always carries the value false. *)
Theorem GetBool_first_element (r : Response) (i : Z) (key : string) :
  (forall b, GetBool r key = (b, true) <->
     exists rest, Get r key = (VBool b :: rest, true))
  /\ ((GetBool r key).2 = false -> GetBool r key = (false, false))
  /\ (forall b, GetBoolAtIndex r i key = Ret (b, true) <->
        exists rest, GetAtIndex r i key = Ret (VBool b :: rest, true))
  /\ (forall b, GetBoolAtIndex r i key = Ret (b, false) -> b = false).
Proof.
  unfold GetBool, GetBoolAtIndex. repeat split.
  - destruct (Get r key) as [v ok].
    intros H. apply first_or_processBool in H as [-> [rest ->]]. by exists rest.
  - intros [rest ->]. apply first_or_processBool. split; [done|by exists rest].
  - destruct (Get r key) as [v ok]. apply first_or_processBool_fail.
  - destruct (GetAtIndex r i key) as [[v ok]|]; simpl; [|done].
    intros [= H]. apply first_or_processBool in H as [-> [rest ->]].
    by exists rest.
  - intros [rest ->]. simpl. f_equal.
    apply first_or_processBool. split; [done|by exists rest].
  - destruct (GetAtIndex r i key) as [[v ok]|]; simpl; [|done].
    intros b [= H].
    pose proof (first_or_processBool_fail v ok) as Hf.
    rewrite H in Hf. by injection (Hf eq_refl).
Qed.

Lemma GetAtIndex_Panic (r : Response) (i : Z) (key : string) :
  GetAtIndex r i key = Panic <-> DictAtIndex r i = Panic.
Proof.
  unfold GetAtIndex. destruct (DictAtIndex r i) as [[d []]|]; simpl; by split.
Qed.

Lemma faulting_index_iff (r : Response) (i : Z) :
  DictAtIndex r i = Panic <-> faulting_index r i.
Proof.
  rewrite DictAtIndex_Panic_iff. unfold faulting_index.
  rewrite CountResults_payload. split.
  - intros (a & -> & H). pose proof (len_nonneg a). lia.
  - destruct (payload r) as [[| | | |a|]|]; try (intros [? _]; lia).
    intros [_ H]. by exists a.
Qed.

Lemma processString_from_split (v : list value) (res l : list string) :
  processString_from res v = (l, false) <->
  exists pre x rest,
    v = ((VString <$> pre) ++ x :: rest)%list
    /\ (forall s, x <> VString s) /\ l = (res ++ pre)%list.
Proof.
  revert res. induction v as [|p v IH]; intros res; simpl.
  - split; [done|]. intros (pre & x & rest & H & _). by destruct pre.
  - destruct p as [| | |s| |]; simpl.
    all: try (split;
      [intros [= <-]; eexists [], _, v;
       split; [reflexivity|]; split; [done|by rewrite app_nil_r]
      |intros (pre & x & rest & H & Hx & ->); destruct pre as [|s' pre];
       [by rewrite app_nil_r|simpl in H; discriminate H]]).
    rewrite IH. split.
    + intros (pre & x & rest & -> & Hx & ->).
      exists (s :: pre), x, rest. by rewrite <- app_assoc.
    + intros (pre & x & rest & H & Hx & ->). destruct pre as [|s' pre].
      * injection H as <- _. by destruct (Hx s).
      * injection H as -> ->. exists pre, x, rest. by rewrite <- app_assoc.
Qed.

(** X6. When a string projection fails on an element, it hands back the
    strings read before that element together with the failure: the list
    returned with false is exactly the longest prefix of strings. *)
Theorem string_projection_failure_prefix (r : Response) (key : string)
    (l : list string) :
  (forall v, processString v = (l, false) <->
     exists x rest, v = ((VString <$> l) ++ x :: rest)%list
                    /\ forall s, x <> VString s)
  /\ (GetStrings r key = (l, false) <->
        (Get r key = ([], false) /\ l = [])
        \/ exists x rest, Get r key = (((VString <$> l) ++ x :: rest)%list, true)
                          /\ forall s, x <> VString s).
Proof.
  assert (forall v, processString v = (l, false) <->
     exists x rest, v = ((VString <$> l) ++ x :: rest)%list
                    /\ forall s, x <> VString s) as Hp.
  { intros v. unfold processString. rewrite processString_from_split. split.
    - intros (pre & x & rest & -> & Hx & ->). by exists x, rest.
    - intros (x & rest & -> & Hx). by exists l, x, rest. }
  split; [done|].
  unfold GetStrings.
  pose proof (Get_fail_nil r key) as Hfail.
  destruct (Get r key) as [v []]; simpl.
  - rewrite Hp. split.
    + intros (x & rest & -> & Hx). right. by exists x, rest.
    + intros [[[=] _]|(x & rest & [= ->] & Hx)]. by exists x, rest.
  - destruct Hfail as [[= ->]|[=]]. split.
    + intros [= <-]. by left.
    + intros [[_ ->]|(? & ? & [=] & _)]. done.
Qed.

Lemma collect_keys_order (range_keys : gmap string value -> list string)
    (m : gmap string value) :
  collect_keys range_keys m = range_keys m.
Proof.
  unfold collect_keys.
  assert (forall (l acc : list string),
            foldl (fun res k => (res ++ [k])%list) acc l = (acc ++ l)%list) as H.
  { induction l as [|k l IH]; intros acc; simpl; [by rewrite app_nil_r|].
    by rewrite IH, <- app_assoc. }
  apply H.
Qed.

Lemma lookup_normalized_flag (m : gmap string value) (key : string) :
  (lookup_normalized m key).2 = true <-> is_Some (m !! key).
Proof.
  unfold lookup_normalized, map_index.
  destruct (m !! key) as [x|]; simpl.
  - split; [by eexists|]. intros _. by destruct x.
  - split; [done|]. by intros [? ?].
Qed.

Lemma keys_listing (range_keys : gmap string value -> list string)
    (m : gmap string value) :
  visits_each_key_once range_keys ->
  NoDup (range_keys m) /\ forall k, k ∈ range_keys m <-> is_Some (m !! k).
Proof.
  intros Hv. specialize (Hv m). split.
  - rewrite Hv. apply NoDup_fst_map_to_list.
  - intros k. rewrite Hv, list_elem_of_fmap. split.
    + intros ([k' x] & -> & Hx). apply elem_of_map_to_list in Hx. by exists x.
    + intros [x Hx]. exists (k, x). split; [done|].
      by apply elem_of_map_to_list.
Qed.

(** X11. Whatever order the map is walked in, [Keys] lists, without
    repetition, exactly the keys for which [Get] succeeds, and succeeds
    exactly when [Dict] does; [KeysAtIndex] does the same for [GetAtIndex]. *)
Theorem Keys_are_the_readable_keys
    (range_keys : gmap string value -> list string) (r : Response) (i : Z) :
  visits_each_key_once range_keys ->
  (Keys range_keys r).2 = (Dict r).2
  /\ NoDup (Keys range_keys r).1
  /\ (forall k, k ∈ (Keys range_keys r).1 <-> (Get r k).2 = true)
  /\ (forall l ok, KeysAtIndex range_keys r i = Ret (l, ok) ->
        NoDup l
        /\ forall k, k ∈ l <-> exists v, GetAtIndex r i k = Ret (v, true)).
Proof.
  intros Hv. unfold Keys, KeysAtIndex, Get, GetAtIndex.
  split; [by destruct (Dict r) as [d []]|].
  split; [|split].
  - destruct (Dict r) as [d []]; simpl; [|constructor].
    rewrite collect_keys_order. by apply keys_listing.
  - intros k. destruct (Dict r) as [d []]; simpl.
    + rewrite collect_keys_order, lookup_normalized_flag.
      by apply keys_listing.
    + split; [|done]. intros H. by apply elem_of_nil in H.
  - intros l ok. destruct (DictAtIndex r i) as [[d []]|]; simpl; [| |done].
    + intros [= <- <-]. rewrite collect_keys_order.
      destruct (keys_listing range_keys d Hv) as [Hn Hk].
      split; [done|]. intros k. rewrite Hk, <- lookup_normalized_flag.
      destruct (lookup_normalized d k) as [v b]; simpl. split.
      * intros ->. by exists v.
      * by intros [? [= _ ->]].
    + intros [= <- <-]. split; [constructor|]. intros k. split.
      * intros H. by apply elem_of_nil in H.
      * by intros [? [=]].
Qed.

Lemma Keys_are_the_readable_keys_witness :
  (Keys range_listed user_add_one).2 = (Dict user_add_one).2
  /\ NoDup (Keys range_listed user_add_one).1
  /\ (forall k, k ∈ (Keys range_listed user_add_one).1
                <-> (Get user_add_one k).2 = true)
  /\ (forall l ok, KeysAtIndex range_listed user_add_one 0 = Ret (l, ok) ->
        NoDup l
        /\ forall k, k ∈ l <-> exists v, GetAtIndex user_add_one 0 k = Ret (v, true)).
Proof.
  apply (Keys_are_the_readable_keys range_listed user_add_one 0).
  intros m. reflexivity.
Defined.

Section ProjectionProps.
Context {Time : Type}.
Variable base64_DecodeString : string -> option (list Byte.byte).
Variable time_Parse : string -> string -> option Time.
Variable zeroTime : Time.
Variable range_keys : gmap string value -> list string.

(** X3. Every accessor that takes an index faults on exactly the same
    inputs: the payload is a list and the index is negative or equal to
    [CountResults].  So no accessor faults for an index from 0 up to
    [CountResults r - 1], nor for one beyond [CountResults r], nor on a
    payload that is not a list. *)
Theorem AtIndex_fault_iff (r : Response) (i : Z) (key : string) :
  (DictAtIndex r i = Panic <-> faulting_index r i)
  /\ (GetAtIndex r i key = Panic <-> faulting_index r i)
  /\ (Inlined.GetAtIndex r i key = Panic <-> faulting_index r i)
  /\ (KeysAtIndex range_keys r i = Panic <-> faulting_index r i)
  /\ (GetBoolAtIndex r i key = Panic <-> faulting_index r i)
  /\ (GetStringsAtIndex r i key = Panic <-> faulting_index r i)
  /\ (GetStringAtIndex r i key = Panic <-> faulting_index r i)
  /\ (GetDatasAtIndex base64_DecodeString r i key = Panic <-> faulting_index r i)
  /\ (GetDataAtIndex base64_DecodeString r i key = Panic <-> faulting_index r i)
  /\ (GetDateTimesAtIndex time_Parse r i key = Panic <-> faulting_index r i)
  /\ (GetDateTimeAtIndex time_Parse zeroTime r i key = Panic
      <-> faulting_index r i).
Proof.
  rewrite GetAtIndex_inlined.
  pose proof (faulting_index_iff r i) as HD.
  assert (GetAtIndex r i key = Panic <-> faulting_index r i) as HG
    by (by rewrite GetAtIndex_Panic).
  assert (KeysAtIndex range_keys r i = Panic <-> faulting_index r i) as HK.
  { rewrite <- HD. unfold KeysAtIndex.
    destruct (DictAtIndex r i) as [[d []]|]; simpl; by split. }
  do 4 (split; [done|]). rewrite <- HG.
  unfold GetDateTimeAtIndex, GetDateTimesAtIndex, GetDataAtIndex,
    GetDatasAtIndex, GetStringAtIndex, GetStringsAtIndex, GetBoolAtIndex.
  destruct (GetAtIndex r i key) as [[v []]|]; simpl; repeat split; try done.
  - by destruct (processString v).
  - by destruct (processData _ v).
  - by destruct (processDateTime _ v).
Qed.

Lemma processData_from_ok (v : list value) (res l : list (list Byte.byte)) :
  processData_from base64_DecodeString res v = (l, true) <->
  exists l', Forall2 (tagged "__base64__" base64_DecodeString) v l'
             /\ l = (res ++ l')%list.
Proof.
  revert res. induction v as [|p v IH]; intros res; simpl.
  - split.
    + intros [= <-]. exists []. split; [constructor|by rewrite app_nil_r].
    + intros (l' & Hl & ->). inversion Hl. by rewrite app_nil_r.
  - split.
    + destruct p as [| | | | |m]; simpl; try done.
      unfold map_index. destruct (m !! "__base64__") as [b|] eqn:Hb; [|done].
      simpl. destruct b as [| | |s| |]; simpl; try done.
      destruct (base64_DecodeString s) as [bytes|] eqn:Hs; [|done].
      intros H. apply IH in H as (l' & Hl & ->).
      exists (bytes :: l'). split; [|by rewrite <- app_assoc].
      constructor; [|done]. by exists m, s.
    + intros (l' & Hl & ->).
      inversion Hl as [|x y v' l'' (m & s & -> & Hb & Hs) Hl']; subst.
      simpl. unfold map_index. rewrite Hb. simpl. rewrite Hs.
      apply IH. exists l''. by rewrite <- app_assoc.
Qed.

Lemma processDateTime_from_ok (v : list value) (res l : list Time) :
  processDateTime_from time_Parse res v = (l, true) <->
  exists l', Forall2 (tagged "__datetime__"
                        (time_Parse LDAPGeneralizedTimeFormat)) v l'
             /\ l = (res ++ l')%list.
Proof.
  revert res. induction v as [|p v IH]; intros res; simpl.
  - split.
    + intros [= <-]. exists []. split; [constructor|by rewrite app_nil_r].
    + intros (l' & Hl & ->). inversion Hl. by rewrite app_nil_r.
  - split.
    + destruct p as [| | | | |m]; simpl; try done.
      unfold map_index. destruct (m !! "__datetime__") as [b|] eqn:Hb; [|done].
      simpl. destruct b as [| | |s| |]; simpl; try done.
      destruct (time_Parse LDAPGeneralizedTimeFormat s) as [t|] eqn:Hs; [|done].
      intros H. apply IH in H as (l' & Hl & ->).
      exists (t :: l'). split; [|by rewrite <- app_assoc].
      constructor; [|done]. by exists m, s.
    + intros (l' & Hl & ->).
      inversion Hl as [|x y v' l'' (m & s & -> & Hb & Hs) Hl']; subst.
      simpl. unfold map_index. rewrite Hb. simpl. rewrite Hs.
      apply IH. exists l''. by rewrite <- app_assoc.
Qed.

(** X7. The binary projections are all-or-nothing: [GetDatas] succeeds with
    [l] exactly when every element of the normalized list is a mapping that
    holds a string under __base64__ which decodes, [l] being the decoded
    values in order; [GetData] is the first of them, and fails on the empty
    list. *)
Theorem binary_projection_all_or_nothing (r : Response) (i : Z) (key : string) :
  (forall l, GetDatas base64_DecodeString r key = (l, true) <->
     exists v, Get r key = (v, true)
               /\ Forall2 (tagged "__base64__" base64_DecodeString) v l)
  /\ GetData base64_DecodeString r key =
       match GetDatas base64_DecodeString r key with
       | (x :: _, true) => (x, true)
       | _ => ([], false)
       end
  /\ (forall l, GetDatasAtIndex base64_DecodeString r i key = Ret (l, true) <->
        exists v, GetAtIndex r i key = Ret (v, true)
                  /\ Forall2 (tagged "__base64__" base64_DecodeString) v l)
  /\ GetDataAtIndex base64_DecodeString r i key =
       match GetDatasAtIndex base64_DecodeString r i key with
       | Ret (x :: _, true) => Ret (x, true)
       | Ret _ => Ret ([], false)
       | Panic => Panic
       end.
Proof.
  assert (forall v l, processData base64_DecodeString v = (l, true) <->
            Forall2 (tagged "__base64__" base64_DecodeString) v l) as Hp.
  { intros v l. unfold processData. rewrite processData_from_ok. split.
    - by intros (l' & Hl & ->).
    - intros Hl. by exists l. }
  unfold GetData, GetDataAtIndex, GetDatas, GetDatasAtIndex. repeat split.
  - destruct (Get r key) as [v []]; [|done].
    intros H. exists v. split; [done|]. by apply Hp.
  - intros (v & -> & Hl). by apply Hp.
  - destruct (Get r key) as [v []]; simpl.
    + destruct (processData _ v) as [l ok]. rewrite first_or_id. by destruct l, ok.
    + done.
  - destruct (GetAtIndex r i key) as [[v []]|]; simpl; try done.
    intros [= H]. exists v. split; [done|]. by apply Hp.
  - intros (v & -> & Hl). simpl. f_equal. by apply Hp.
  - destruct (GetAtIndex r i key) as [[v []]|]; simpl; try done.
    destruct (processData _ v) as [l ok]. rewrite first_or_id. by destruct l, ok.
Qed.

(** X8. The timestamp projections are all-or-nothing in the same way, on
    the tag __datetime__ and the layout [LDAPGeneralizedTimeFormat];
    [GetDateTime] fails with the zero time. *)
Theorem timestamp_projection_all_or_nothing (r : Response) (i : Z)
    (key : string) :
  (forall l, GetDateTimes time_Parse r key = (l, true) <->
     exists v, Get r key = (v, true)
               /\ Forall2 (tagged "__datetime__"
                             (time_Parse LDAPGeneralizedTimeFormat)) v l)
  /\ GetDateTime time_Parse zeroTime r key =
       match GetDateTimes time_Parse r key with
       | (x :: _, true) => (x, true)
       | _ => (zeroTime, false)
       end
  /\ (forall l, GetDateTimesAtIndex time_Parse r i key = Ret (l, true) <->
        exists v, GetAtIndex r i key = Ret (v, true)
                  /\ Forall2 (tagged "__datetime__"
                                (time_Parse LDAPGeneralizedTimeFormat)) v l)
  /\ GetDateTimeAtIndex time_Parse zeroTime r i key =
       match GetDateTimesAtIndex time_Parse r i key with
       | Ret (x :: _, true) => Ret (x, true)
       | Ret _ => Ret (zeroTime, false)
       | Panic => Panic
       end.
Proof.
  assert (forall v l, processDateTime time_Parse v = (l, true) <->
            Forall2 (tagged "__datetime__"
                       (time_Parse LDAPGeneralizedTimeFormat)) v l) as Hp.
  { intros v l. unfold processDateTime. rewrite processDateTime_from_ok. split.
    - by intros (l' & Hl & ->).
    - intros Hl. by exists l. }
  unfold GetDateTime, GetDateTimeAtIndex, GetDateTimes, GetDateTimesAtIndex.
  repeat split.
  - destruct (Get r key) as [v []]; [|done].
    intros H. exists v. split; [done|]. by apply Hp.
  - intros (v & -> & Hl). by apply Hp.
  - destruct (Get r key) as [v []]; simpl.
    + destruct (processDateTime _ v) as [l ok]. rewrite first_or_id.
      by destruct l, ok.
    + done.
  - destruct (GetAtIndex r i key) as [[v []]|]; simpl; try done.
    intros [= H]. exists v. split; [done|]. by apply Hp.
  - intros (v & -> & Hl). simpl. f_equal. by apply Hp.
  - destruct (GetAtIndex r i key) as [[v []]|]; simpl; try done.
    destruct (processDateTime _ v) as [l ok]. rewrite first_or_id.
    by destruct l, ok.
Qed.

(** X9. A key that [Get] cannot read gives the zero value and false from
    every typed projection: false, the empty string, the empty list, no
    bytes, the zero time. *)
Theorem missing_key_zero_values (r : Response) (key : string) :
  (Get r key).2 = false ->
  GetBool r key = (false, false)
  /\ GetStrings r key = ([], false)
  /\ GetString r key = ("", false)
  /\ GetDatas base64_DecodeString r key = ([], false)
  /\ GetData base64_DecodeString r key = ([], false)
  /\ GetDateTimes time_Parse r key = ([], false)
  /\ GetDateTime time_Parse zeroTime r key = (zeroTime, false).
Proof.
  intros H.
  unfold GetBool, GetString, GetStrings, GetData, GetDatas, GetDateTime,
    GetDateTimes.
  destruct (Get_fail_nil r key) as [->|H']; [done|]. by rewrite H' in H.
Qed.

(** X10. A key stored with an empty list is read as present by the plural
    projections, which succeed with nothing, and as absent by the singular
    ones, which fail with the zero value. *)
Theorem empty_list_plural_succeeds_singular_fails (r : Response) (key : string) :
  Get r key = ([], true) ->
  GetStrings r key = ([], true)
  /\ GetDatas base64_DecodeString r key = ([], true)
  /\ GetDateTimes time_Parse r key = ([], true)
  /\ GetBool r key = (false, false)
  /\ GetString r key = ("", false)
  /\ GetData base64_DecodeString r key = ([], false)
  /\ GetDateTime time_Parse zeroTime r key = (zeroTime, false).
Proof.
  intros H.
  unfold GetBool, GetString, GetStrings, GetData, GetDatas, GetDateTime,
    GetDateTimes.
  by rewrite H.
Qed.
End ProjectionProps.

Lemma missing_key_zero_values_witness :
  GetBool user_add_one "non-existant" = (false, false)
  /\ GetStrings user_add_one "non-existant" = ([], false)
  /\ GetString user_add_one "non-existant" = ("", false)
  /\ GetDatas (fun _ => None) user_add_one "non-existant" = ([], false)
  /\ GetData (fun _ => None) user_add_one "non-existant" = ([], false)
  /\ GetDateTimes (fun _ _ => @None unit) user_add_one "non-existant" = ([], false)
  /\ GetDateTime (fun _ _ => @None unit) tt user_add_one "non-existant"
     = (tt, false).
Proof.
  apply (missing_key_zero_values (fun _ => None) (fun _ _ => @None unit) tt
           user_add_one "non-existant").
  reflexivity.
Defined.

Lemma empty_list_plural_succeeds_singular_fails_witness :
  GetStrings (reply 0 (VMap {[ "memberof" := VList [] ]})) "memberof" = ([], true)
  /\ GetDatas (fun _ => None) (reply 0 (VMap {[ "memberof" := VList [] ]}))
       "memberof" = ([], true)
  /\ GetDateTimes (fun _ _ => @None unit)
       (reply 0 (VMap {[ "memberof" := VList [] ]})) "memberof" = ([], true)
  /\ GetBool (reply 0 (VMap {[ "memberof" := VList [] ]})) "memberof"
     = (false, false)
  /\ GetString (reply 0 (VMap {[ "memberof" := VList [] ]})) "memberof"
     = ("", false)
  /\ GetData (fun _ => None) (reply 0 (VMap {[ "memberof" := VList [] ]}))
       "memberof" = ([], false)
  /\ GetDateTime (fun _ _ => @None unit) tt
       (reply 0 (VMap {[ "memberof" := VList [] ]})) "memberof" = (tt, false).
Proof.
  apply (empty_list_plural_succeeds_singular_fails (fun _ => None)
           (fun _ _ => @None unit) tt
           (reply 0 (VMap {[ "memberof" := VList [] ]})) "memberof").
  reflexivity.
Defined.

(** * Further properties of the envelope *)

Lemma has_percent_app (a b : string) :
  has_percent (a +:+ b) = has_percent a || has_percent b.
Proof.
  induction a as [|c a IH]; simpl; [done|]. by rewrite IH, orb_assoc.
Qed.

Lemma has_percent_pretty_N_go (x : N) (s : string) :
  has_percent (pretty_N_go x s) = has_percent s.
Proof.
  revert s. induction (N.lt_wf_0 x) as [x _ IH]; intros s.
  destruct (decide (x = 0)%N) as [->|Hx]; [done|].
  rewrite pretty_N_go_step by lia.
  rewrite IH by (apply N.div_lt; lia). simpl.
  assert (x `mod` 10 < 10)%N as Hm by (apply N.mod_lt; lia).
  destruct (x `mod` 10)%N as [|p]; [done|].
  do 9 (destruct p as [p|p|]; try done; try lia).
Qed.

(** The digits of an integer hold no percent sign. *)
Lemma has_percent_fmt_int (n : Z) : has_percent (fmt_int n) = false.
Proof.
  unfold fmt_int, pretty, pretty_Z. destruct n as [|p|p]; [done| |].
  - unfold pretty, pretty_positive, pretty, pretty_N. simpl.
    apply has_percent_pretty_N_go.
  - rewrite has_percent_app. simpl.
    unfold pretty, pretty_positive, pretty, pretty_N. simpl.
    apply has_percent_pretty_N_go.
Qed.

Lemma has_percent_Message_string (e : Message) :
  has_percent (Message_string e)
  = has_percent (msg_Name e) || has_percent (msg_Message e).
Proof.
  unfold Message_string.
  by rewrite !has_percent_app, has_percent_fmt_int.
Qed.

Section EnvelopeMore.
Variable json_Decode : string -> result Response.

(** X12. [ParseResponse] returns a response exactly when the body decodes
    to an envelope with no error and with a result; a response it returns is
    the decoded envelope itself, so its result is never nil. *)
Theorem ParseResponse_returns_iff (body : string) (res : Response) :
  ParseResponse json_Decode body = Ok res <->
  json_Decode body = Ok res /\ resp_Error res = None
  /\ is_Some (resp_Result res).
Proof.
  rewrite ParseResponse_cases.
  destruct (json_Decode body) as [res'|err].
  - destruct (resp_Error res') as [e|] eqn:He.
    + split; [done|]. intros ([= <-] & He' & _). congruence.
    + destruct (resp_Result res') as [x|] eqn:Hr; split.
      * intros [= <-]. by rewrite Hr.
      * by intros ([= <-] & _).
      * done.
      * intros ([= <-] & _ & [x Hx]). congruence.
  - split; [done|]. by intros ([=] & _).
Qed.

(** X13. As long as neither the name nor the message of the error envelope
    holds a percent sign, [ParseResponse] fails with exactly
    name (code): message, whether or not a result came with the error. *)
Theorem ParseResponse_error_as_sent (body : string) (res : Response)
    (e : Message) :
  json_Decode body = Ok res -> resp_Error res = Some e ->
  has_percent (msg_Name e) = false -> has_percent (msg_Message e) = false ->
  ParseResponse json_Decode body
  = Err (msg_Name e +:+ " (" +:+ fmt_int (msg_Code e) +:+ "): " +:+ msg_Message e).
Proof.
  intros Hd He Hn Hm. rewrite ParseResponse_cases, Hd, He. f_equal.
  apply (Errorf0_no_percent (Message_string e)).
  by rewrite has_percent_Message_string, Hn, Hm.
Qed.
End EnvelopeMore.

Lemma ParseResponse_error_as_sent_witness :
  ParseResponse (decodes_to invalid_json_error) "invalid_json.json"
  = Err "JSONError (909): Invalid JSON-RPC request: Expecting property name enclosed in double quotes: line 4 column 4 (char 44)".
Proof.
  exact (ParseResponse_error_as_sent (decodes_to invalid_json_error)
           "invalid_json.json" invalid_json_error _ eq_refl eq_refl
           eq_refl eq_refl).
Defined.

(** * Further properties of the session *)

Lemma Header_Get_Set (hd : gmap string (list string)) (key v : string) :
  Header_Get (Header_Set hd key v) key = v.
Proof. unfold Header_Get, Header_Set. by rewrite lookup_insert_eq. Qed.

Lemma Header_Get_Set_ne (hd : gmap string (list string)) (key key' v : string) :
  key <> key' ->
  Header_Get (Header_Set hd key v) key' = Header_Get hd key'.
Proof. intros H. unfold Header_Get, Header_Set. by rewrite lookup_insert_ne. Qed.

Section SessionMore.
Context {W : Type}.
Variable json_Decode : string -> result Response.
Variable http_NewRequest : string -> string -> option string -> result HTTPRequest.
Variable url_Parse : string -> option error.
Variable h : handler W.

(** What a send leaves in the trace. *)
Lemma sendRequest_events (c : Client) (req : Request) (w w' : W)
    (r : result HTTPResponse) (t : list event) :
  run h (sendRequest http_NewRequest c req) w = (r, w', t) ->
  count is_post_form t = 0%nat /\ count is_spnego t = 0%nat
  /\ Forall (carries_json_headers c) t
  /\ (forall res, r = Ok res -> Exists (answered res) t).
Proof.
  unfold sendRequest. rewrite run_bind, run_perform.
  destruct (h _ (json_Marshal req) w) as [[data|e] w1]; simpl.
  - destruct (http_NewRequest _ _ _) as [hreq|e]; simpl.
    + destruct (h _ (client_Do _) w1) as [x w2]. intros [= <- <- <-].
      simpl. repeat split; try done.
      * repeat constructor; simpl.
        -- rewrite !Header_Get_Set_ne by done. apply Header_Get_Set.
        -- rewrite Header_Get_Set_ne by done. apply Header_Get_Set.
        -- apply Header_Get_Set.
      * intros res ->. apply Exists_cons_tl, Exists_cons_hd. done.
    + intros [= <- <- <-]. simpl. repeat split; try done.
      by repeat constructor.
  - intros [= <- <- <-]. simpl. repeat split; try done.
    by repeat constructor.
Qed.

(** What a login leaves in the trace. *)
Lemma login_events (c : Client) (w w' : W) (e : option error) (t : list event) :
  run h (login http_NewRequest c) w = (e, w', t) ->
  Forall (carries_json_headers c) t
  /\ (is_Some (krb5 c) -> count is_post_form t = 0%nat)
  /\ (krb5 c = None -> count is_spnego t = 0%nat)
  /\ (krb5 c = None -> e = None -> count is_post_form t = 1%nat).
Proof.
  unfold login, loginWithKerberos. destruct (krb5 c) as [k|].
  - destruct (http_NewRequest _ _ _) as [hreq|err]; simpl.
    + destruct (h _ (spnego_Do _ _) w) as [[res|err] w1]; simpl.
      * destruct (negb _); intros [= <- <- <-]; simpl;
          repeat split; try done; by repeat constructor.
      * intros [= <- <- <-]. simpl.
        repeat split; try done; by repeat constructor.
    + intros [= <- <- <-]. simpl. repeat split; try done; by repeat constructor.
  - simpl. destruct (h _ (client_PostForm _ _) w) as [[res|err] w1]; simpl.
    + destruct (negb _); [destruct (_ =? _)|];
        intros [= <- <- <-]; simpl;
        repeat split; try done; try (by repeat constructor); by intros [? ?].
    + intros [= <- <- <-]. simpl.
      repeat split; try done; try (by repeat constructor); by intros [? ?].
Qed.

(** The three courses a run of [Do] can take. *)
Lemma Do_courses (c : Client) (req : Request) (w : W) :
  (exists r1 w1 t1,
      run h (sendRequest http_NewRequest c req) w = (r1, w1, t1)
      /\ (forall res, r1 = Ok res -> StatusCode res <> http_StatusUnauthorized)
      /\ run h (Do json_Decode http_NewRequest c req) w
         = (match r1 with
            | Err err => Err err
            | Ok res => expect_ok json_Decode res
            end, w1, t1))
  \/ (exists res1 w1 t1 err w2 t2,
        run h (sendRequest http_NewRequest c req) w = (Ok res1, w1, t1)
        /\ StatusCode res1 = http_StatusUnauthorized
        /\ run h (login http_NewRequest c) w1 = (Some err, w2, t2)
        /\ run h (Do json_Decode http_NewRequest c req) w
           = (Err ("renewed login failed: " +:+ err), w2, (t1 ++ t2)%list))
  \/ (exists res1 w1 t1 w2 t2 r2 w3 t3,
        run h (sendRequest http_NewRequest c req) w = (Ok res1, w1, t1)
        /\ StatusCode res1 = http_StatusUnauthorized
        /\ run h (login http_NewRequest c) w1 = (None, w2, t2)
        /\ run h (sendRequest http_NewRequest c req) w2 = (r2, w3, t3)
        /\ run h (Do json_Decode http_NewRequest c req) w
           = (match r2 with
              | Err err => Err err
              | Ok res => expect_ok json_Decode res
              end, w3, (t1 ++ t2 ++ t3)%list)).
Proof.
  unfold Do. rewrite run_bind.
  destruct (run h (sendRequest http_NewRequest c req) w) as [[r1 w1] t1]
    eqn:Hsend.
  destruct r1 as [res1|err]; cbv beta iota.
  - destruct (Z.eqb_spec (StatusCode res1) http_StatusUnauthorized) as [Hst|Hst].
    + right. rewrite run_bind.
      destruct (run h (login http_NewRequest c) w1) as [[[err|] w2] t2]
        eqn:Hlogin; cbv beta iota.
      * left. exists res1, w1, t1, err, w2, t2. simpl.
        by rewrite app_nil_r.
      * right. rewrite run_bind.
        destruct (run h (sendRequest http_NewRequest c req) w2)
          as [[r2 w3] t3] eqn:Hsend2.
        exists res1, w1, t1, w2, t2, r2, w3, t3. cbv beta iota.
        repeat split; try done.
        destruct r2; simpl; by rewrite app_nil_r.
    + left. exists (Ok res1), w1, t1. simpl. rewrite app_nil_r.
      split; [done|]. split; [|done]. by intros res [= <-].
  - left. exists (Err err), w1, t1. simpl. rewrite app_nil_r.
    split; [done|]. by split.
Qed.
End SessionMore.

Section SessionExtras.
Context {W : Type}.
Variable json_Decode : string -> result Response.
Variable http_NewRequest : string -> string -> option string -> result HTTPRequest.
Variable url_Parse : string -> option error.
Variable h : handler W.

Lemma expect_ok_inv (hres : HTTPResponse) (res : Response) :
  expect_ok json_Decode hres = Ok res ->
  StatusCode hres = http_StatusOK /\ json_Decode (Body hres) = Ok res
  /\ resp_Error res = None /\ is_Some (resp_Result res).
Proof.
  unfold expect_ok. destruct (Z.eqb_spec (StatusCode hres) http_StatusOK); [|done].
  simpl. rewrite ParseResponse_cases.
  destruct (json_Decode (Body hres)) as [res'|]; [|done].
  destruct (resp_Error res') eqn:He; [done|].
  destruct (resp_Result res') eqn:Hr; [|done].
  intros [= <-]. by rewrite Hr.
Qed.


(** X15. When the first send fails, or is answered with any status but
    401, [Do] neither logs in nor sends again: a transport error is passed on
    as it is, a 200 is parsed, any other status is reported as unexpected. *)
Theorem Do_without_relogin (c : Client) (req : Request) (w w1 : W)
    (r1 : result HTTPResponse) (t1 : list event) :
  run h (sendRequest http_NewRequest c req) w = (r1, w1, t1) ->
  (forall res, r1 = Ok res -> StatusCode res <> http_StatusUnauthorized) ->
  run h (Do json_Decode http_NewRequest c req) w
    = (match r1 with
       | Err err => Err err
       | Ok res =>
         if StatusCode res =? http_StatusOK
         then ParseResponse json_Decode (Body res)
         else Err ("unexpected http status code: " +:+ fmt_int (StatusCode res))
       end, w1, t1)
  /\ count is_login t1 = 0%nat /\ (count is_send t1 <= 1)%nat.
Proof.
  intros Hs Hne.
  pose proof (sendRequest_trace _ _ _ _ _ _ _ _ Hs) as (Hl1 & Hs1 & _).
  split; [|done].
  destruct (Do_courses json_Decode http_NewRequest h c req w)
    as [(r1' & w1' & t1' & Hs' & _ & ->)
       |[(res1 & w1' & t1' & err & w2 & t2 & Hs' & Hst & _)
        |(res1 & w1' & t1' & w2 & t2 & r2 & w3 & t3 & Hs' & Hst & _)]];
    rewrite Hs in Hs'; injection Hs' as -> -> ->.
  - destruct r1' as [res|err]; [|done]. unfold expect_ok.
    by destruct (StatusCode res =? http_StatusOK).
  - by destruct (Hne res1 eq_refl).
  - by destruct (Hne res1 eq_refl).
Qed.

(** X17. A response returned by [Do] carries no error and a result, and is
    the decoding of the body of a JSON-RPC answer with status 200 that the
    call itself received. *)
Theorem Do_returns_decoded_200 (c : Client) (req : Request) (w w' : W)
    (res : Response) (t : list event) :
  run h (Do json_Decode http_NewRequest c req) w = (Ok res, w', t) ->
  resp_Error res = None /\ is_Some (resp_Result res)
  /\ exists hres, Exists (answered hres) t
                  /\ StatusCode hres = http_StatusOK
                  /\ json_Decode (Body hres) = Ok res.
Proof.
  intros HD.
  destruct (Do_courses json_Decode http_NewRequest h c req w)
    as [(r1 & w1 & t1 & Hs & _ & HD')
       |[(res1 & w1 & t1 & err & w2 & t2 & Hs & _ & Hl & HD')
        |(res1 & w1 & t1 & w2 & t2 & r2 & w3 & t3 & Hs & _ & Hl & Hs2 & HD')]];
    rewrite HD in HD'.
  - destruct r1 as [hres|err]; [|done]. injection HD' as He -> ->.
    symmetry in He. apply expect_ok_inv in He as (Hst & Hd & He & Hr).
    apply sendRequest_events in Hs as (_ & _ & _ & Ha).
    repeat split; try done. exists hres. split; [by apply Ha|done].
  - done.
  - destruct r2 as [hres|err]; [|done]. injection HD' as He -> ->.
    symmetry in He. apply expect_ok_inv in He as (Hst & Hd & He & Hr).
    apply sendRequest_events in Hs2 as (_ & _ & _ & Ha).
    repeat split; try done. exists hres. split; [|done].
    rewrite !Exists_app. right. right. by apply Ha.
Qed.

(** X18. The password login succeeds exactly when the form post to
    /session/login_password, carrying the user and the password, is answered
    with status 200. *)
Theorem login_password_succeeds_iff (c : Client) (w : W) :
  krb5 c = None ->
  (run h (login http_NewRequest c) w).1.1 = None <->
  exists res,
    (h _ (client_PostForm (uriBase c +:+ "/session/login_password")
            [("user", [user c]); ("password", [password c])]) w).1 = Ok res
    /\ StatusCode res = http_StatusOK.
Proof.
  intros Hk. unfold login. rewrite Hk. simpl.
  destruct (h _ (client_PostForm _ _) w) as [[res|err] w1]; simpl.
  - destruct (Z.eqb_spec (StatusCode res) http_StatusOK) as [Hst|Hst]; simpl.
    + split; [|done]. intros _. by exists res.
    + destruct (_ =? _); simpl; (split; [done|]); by intros (? & [= <-] & ?).
  - split; [done|]. by intros (? & [=] & _).
Qed.

(** X19. A client that holds a Kerberos client never posts the password
    form, during [login] or during [Do]; a client that holds none never
    starts a SPNEGO exchange. *)
Theorem credentials_decide_the_login_path (c : Client) (req : Request) (w : W) :
  (is_Some (krb5 c) ->
     count is_post_form (run h (login http_NewRequest c) w).2 = 0%nat
     /\ count is_post_form
          (run h (Do json_Decode http_NewRequest c req) w).2 = 0%nat)
  /\ (krb5 c = None ->
        count is_spnego (run h (login http_NewRequest c) w).2 = 0%nat
        /\ count is_spnego
             (run h (Do json_Decode http_NewRequest c req) w).2 = 0%nat).
Proof.
  assert (forall w0 e w' t,
            run h (login http_NewRequest c) w0 = (e, w', t) ->
            (is_Some (krb5 c) -> count is_post_form t = 0%nat)
            /\ (krb5 c = None -> count is_spnego t = 0%nat)) as HL.
  { intros w0 e w' t Hl.
    apply (login_events http_NewRequest h) in Hl as (_ & H1 & H2 & _). done. }
  assert (forall w0 r w' t,
            run h (sendRequest http_NewRequest c req) w0 = (r, w', t) ->
            count is_post_form t = 0%nat /\ count is_spnego t = 0%nat) as HS.
  { intros w0 r w' t Hs.
    apply (sendRequest_events http_NewRequest h) in Hs as (H1 & H2 & _). done. }
  destruct (Do_courses json_Decode http_NewRequest h c req w)
    as [(r1 & w1 & t1 & Hs & _ & ->)
       |[(res1 & w1 & t1 & err & w2 & t2 & Hs & _ & Hl & ->)
        |(res1 & w1 & t1 & w2 & t2 & r2 & w3 & t3 & Hs & _ & Hl & Hs2 & ->)]];
    destruct (run h (login http_NewRequest c) w) as [[e w'] t] eqn:Hlogin;
    destruct (HL _ _ _ _ Hlogin) as [HLk HLp];
    simpl; rewrite ?count_app.
  - destruct (HS _ _ _ _ Hs) as [-> ->]. split; intros Hk; split; auto.
  - destruct (HS _ _ _ _ Hs) as [-> ->].
    destruct (HL _ _ _ _ Hl) as [H1 H2].
    split; intros Hk; (split; [auto|]); [rewrite H1|rewrite H2]; auto.
  - destruct (HS _ _ _ _ Hs) as [-> ->].
    destruct (HS _ _ _ _ Hs2) as [-> ->].
    destruct (HL _ _ _ _ Hl) as [H1 H2].
    split; intros Hk; (split; [auto|]); [rewrite H1|rewrite H2]; auto.
Qed.

(** X20. Every JSON-RPC round trip [Do] makes carries
    Content-Type: application/json, Accept: application/json and the base
    address as Referer, whatever headers the request came with. *)
Theorem Do_sends_json_headers (c : Client) (req : Request) (w : W) :
  Forall (carries_json_headers c)
    (run h (Do json_Decode http_NewRequest c req) w).2.
Proof.
  destruct (Do_courses json_Decode http_NewRequest h c req w)
    as [(r1 & w1 & t1 & Hs & _ & ->)
       |[(res1 & w1 & t1 & err & w2 & t2 & Hs & _ & Hl & ->)
        |(res1 & w1 & t1 & w2 & t2 & r2 & w3 & t3 & Hs & _ & Hl & Hs2 & ->)]];
    simpl; rewrite ?Forall_app.
  - by apply sendRequest_events in Hs as (_ & _ & ? & _).
  - apply sendRequest_events in Hs as (_ & _ & ? & _).
    by apply login_events in Hl as (? & _).
  - apply sendRequest_events in Hs as (_ & _ & ? & _).
    apply sendRequest_events in Hs2 as (_ & _ & ? & _).
    by apply login_events in Hl as (? & _).
Qed.

(** X21. A client returned by [Connect] has the base address
    https://host/ipa, which parsed as a URL, holds the given user and
    password and no Kerberos client, and was obtained with exactly one
    password form post and no other round trip. *)
Theorem Connect_returns_logged_in_client (host usr pw : string) (w w' : W)
    (c : Client) (t : list event) :
  run h (Connect http_NewRequest url_Parse host usr pw) w = (Ok c, w', t) ->
  c = {| uriBase := "https://" +:+ host +:+ "/ipa"; user := usr;
         password := pw; krb5 := None |}
  /\ url_Parse (uriBase c) = None
  /\ count is_post_form t = 1%nat
  /\ count is_spnego t = 0%nat
  /\ count is_send t = 0%nat.
Proof.
  unfold Connect. cbv zeta.
  destruct (url_Parse _) as [err|] eqn:Hu; [done|].
  rewrite run_bind.
  destruct (run h (login http_NewRequest _) w) as [[[err|] w1] t1] eqn:Hl;
    cbv beta iota; [done|].
  simpl. rewrite app_nil_r. intros [= <- <- <-]. simpl.
  pose proof (login_trace _ _ _ _ _ _ _ Hl) as (Hs & _).
  apply login_events in Hl as (_ & _ & Hsp & Hpf).
  repeat split; auto.
Qed.

(** X22. The Kerberos login never reports a rejection reason: whatever the
    server answers, a 401 with the reason header included, its error is none
    of the texts the classifier of the password login produces. *)
Theorem kerberos_login_reports_no_reason (c : Client) (k : Krb5Client) (w : W) :
  krb5 c = Some k ->
  forall e res,
    (run h (login http_NewRequest c) w).1.1 = Some e ->
    e <> unauthorizedHTTPError res.
Proof.
  intros Hk e res. unfold login, loginWithKerberos. rewrite Hk.
  unfold unauthorizedHTTPError.
  destruct (http_NewRequest _ _ _) as [hreq|err]; simpl.
  - destruct (h _ (spnego_Do _ _) w) as [[hres|err] w1]; simpl.
    + destruct (negb _); simpl; [|done]. by intros [= <-].
    + by intros [= <-].
  - by intros [= <-].
Qed.
End SessionExtras.

Lemma Do_without_relogin_witness :
  (run test_server
     (Do (decodes_to user_add_one) new_request (test_client "testpassword")
        user_add_request) true).1.1
  = Ok user_add_one.
Proof.
  refine (f_equal (fun x => x.1.1)
            (proj1 (Do_without_relogin (decodes_to user_add_one) new_request
                      test_server (test_client "testpassword")
                      user_add_request true _ _ _ eq_refl _))).
  intros res [= <-]. vm_compute. discriminate.
Defined.

Lemma Do_returns_decoded_200_witness :
  resp_Error user_add_one = None /\ is_Some (resp_Result user_add_one).
Proof.
  pose proof (Do_returns_decoded_200 (decodes_to user_add_one) new_request
                test_server (test_client "testpassword") user_add_request
                false true user_add_one _ eq_refl) as H.
  exact (conj (proj1 H) (proj1 (proj2 H))).
Defined.

Lemma login_password_succeeds_iff_witness :
  (run test_server (login new_request (test_client "testpassword")) false).1.1
  = None.
Proof.
  apply (proj2 (login_password_succeeds_iff new_request test_server
                  (test_client "testpassword") false eq_refl)).
  eexists. split; reflexivity.
Defined.

Lemma Connect_returns_logged_in_client_witness :
  count is_post_form
    (run test_server
       (Connect new_request (fun _ => None) "127.0.0.1:8831" "test" "testpassword")
       false).2 = 1%nat.
Proof.
  exact (proj1 (proj2 (proj2
           (Connect_returns_logged_in_client new_request (fun _ => None)
              test_server "127.0.0.1:8831" "test" "testpassword" false true
              _ _ eq_refl)))).
Defined.

Lemma kerberos_login_reports_no_reason_witness :
  "unexpected http status code: 401" <> unauthorizedHTTPError login_rejected.
Proof.
  exact (kerberos_login_reports_no_reason new_request kerberos_rejecting_server
           test_krb5_client _ tt eq_refl _ login_rejected eq_refl).
Defined.

(** * Further properties of the two revisions and of the request builder *)

(** X16. The two revisions of [GetAtIndex], the one that calls
    [DictAtIndex] and the one that carries its body, return the same answer
    and fault on the same inputs. *)
Theorem GetAtIndex_revisions_agree (r : Response) (i : Z) (key : string) :
  Inlined.GetAtIndex r i key = GetAtIndex r i key.
Proof.
  unfold Inlined.GetAtIndex. rewrite GetAtIndex_payload. unfold payload.
  destruct (resp_Result r) as [res|]; [|done]. simpl.
  destruct (res_Result res) as [| | | |a|]; try done. simpl.
  destruct (len a <? i); [done|].
  destruct (slice_index a i) as [d|]; [|done]. simpl.
  destruct d as [| | | | |m]; try done. simpl.
  unfold lookup_normalized.
  destruct (map_index m key) as [v []]; [|done]. simpl.
  by destruct (as_list v) as [a' []].
Qed.

(** X23. [NewRequest] keeps the caller's map instead of copying it: a
    second request built from the same map leaves every table as the first
    call left it, both requests hold the one reference, and whatever the
    caller assigns to the map afterwards, the version entry included, is what
    both requests then hold. *)
Theorem NewRequest_shares_the_map (h : heap) (method1 method2 : string)
    (args1 args2 : list value) (l : loc) :
  exists req1 h1 req2 h2,
    NewRequest h method1 args1 (MapAt l) = Ret (req1, h1)
    /\ NewRequest h1 method2 args2 (MapAt l) = Ret (req2, h2)
    /\ (forall l', h2 l' = h1 l')
    /\ req_Params req1 !! 1%nat = Some (PMap (MapAt l))
    /\ req_Params req2 !! 1%nat = Some (PMap (MapAt l))
    /\ (forall key v h3,
          map_assign h2 (MapAt l) key v = Ret h3 ->
          map_read h3 (MapAt l) key = Some v).
Proof.
  eexists _, _, _, _. split; [reflexivity|]. split; [reflexivity|].
  repeat split.
  - intros l'. destruct (decide (l' = l)) as [->|Hne].
    + rewrite !fn_lookup_insert. by rewrite insert_insert_eq.
    + by rewrite !fn_lookup_insert_ne.
  - intros key v h3 [= <-]. simpl.
    by rewrite fn_lookup_insert, lookup_insert_eq.
Qed.
